(** * LMS303 (LSM303D) accelerometer / magnetometer / thermometer driver

    A shallow embedding of [src/imu/src/LMS303.cpp]: the register transport
    ([readI2CDevice], [writeI2CDeviceByte]), the configuration setters, the
    read pipeline ([readFullSensorState], [readAccelFIFO],
    [averageAccelFIFO]) and the conversions to physical units.

    - [char] cells are bytes; [short] and [int] are [Z] with the 16- and
      32-bit wrap-around written out;
    - [float] and [double] are IEEE-754 binary32 and binary64 values, computed
      with the executable operations of [SpecFloat];
    - the I2C character device is an explicit [World]: the replies the kernel
      gives to each bus transaction, the handles that are open, and the trace
      of system calls issued so far;
    - every method is a state-passing function over the driver object and the
      world. Logging ([ROS_ERROR], [ROS_DEBUG]) has no effect on either and
      is left out. *)

From Stdlib Require Import ZArith List Lia Bool.
From Stdlib Require Import SpecFloat.
From coqutil Require Import Byte.
Import ListNotations.
Local Open Scope Z_scope.

(** ** Machine integers *)

(** Conversion of an [int] value to [short]: keep the low 16 bits, read them
    as two's complement. *)
Definition to_short (z : Z) : Z := (z + 32768) mod 65536 - 32768.

(** Result of [int] arithmetic: keep the low 32 bits, two's complement. *)
Definition to_int (z : Z) : Z := (z + 2147483648) mod 4294967296 - 2147483648.

(** ** Floating point *)

(** [float]: IEEE-754 binary32. *)
Definition float : Type := spec_float.
(** [double]: IEEE-754 binary64. *)
Definition double : Type := spec_float.

Module Float.
Definition prec : Z := 24.
Definition emax : Z := 128.
Definition mul : float -> float -> float := SFmul prec emax.
Definition add : float -> float -> float := SFadd prec emax.
(** [(float)i] for an integer [i]. *)
Definition of_int (i : Z) : float := binary_normalize prec emax i 0 false.
(** [(float)d] for a [double] [d]: rounding to nearest, ties to even. *)
Definition of_double (d : double) : float :=
  match d with
  | S754_finite s m e => binary_round prec emax s m e
  | _ => d
  end.
End Float.

Module Double.
Definition prec : Z := 53.
Definition emax : Z := 1024.
Definition mul : double -> double -> double := SFmul prec emax.
Definition add : double -> double -> double := SFadd prec emax.
Definition div : double -> double -> double := SFdiv prec emax.
Definition sqrt : double -> double := SFsqrt prec emax.
Definition of_int (i : Z) : double := binary_normalize prec emax i 0 false.
(** Promotion of a [float] to [double] (exact). *)
Definition of_float (f : float) : double :=
  match f with
  | S754_finite s m e => binary_round prec emax s m e
  | _ => f
  end.
(** The decimal literal [num / 10^digits], e.g. [.000061] is
    [literal 61 6]: the [double] nearest to the written value. Both
    operands are exact, so the correctly rounded quotient is that value. *)
Definition literal (num : Z) (digits : Z) : double :=
  div (of_int num) (of_int (10 ^ digits)).
End Double.

(** [M_PI] of <math.h>: 3.14159265358979323846 as a [double]. *)
Definition M_PI : double := S754_finite false 7074237752028440 (-51).

(** ** What the driver takes from outside this file *)

(** The macros and enumerators of [imu/LMS303.h]. The header is not part of
    the sources at hand, so the register addresses, the buffer sizes and the
    numeric values of the enumerators are parameters of the development. *)
Class Header : Type := {
  LMS303_I2C_BUFFER : Z;
  ACCEL_FIFO_SIZE : Z;
  REG_TEMP_OUT_L : Z;
  REG_TEMP_OUT_H : Z;
  REG_OUT_X_L_M : Z;
  REG_OUT_X_H_M : Z;
  REG_OUT_Y_L_M : Z;
  REG_OUT_Y_H_M : Z;
  REG_OUT_Z_L_M : Z;
  REG_OUT_Z_H_M : Z;
  REG_WHO_AM_I : Z;
  REG_INT_CTRL_M : Z;
  REG_CTRL0 : Z;
  REG_CTRL2 : Z;
  REG_CTRL5 : Z;
  REG_CTRL6 : Z;
  REG_STATUS_A : Z;
  REG_OUT_X_L_A : Z;
  REG_OUT_X_H_A : Z;
  REG_OUT_Y_L_A : Z;
  REG_OUT_Y_H_A : Z;
  REG_OUT_Z_L_A : Z;
  REG_OUT_Z_H_A : Z;
  REG_FIFO_CTRL : Z;
  REG_FIFO_SRC : Z;
  (* enum LMS303_ACCEL_SCALE *)
  SCALE_ACCEL_2g : Z;
  SCALE_ACCEL_4g : Z;
  SCALE_ACCEL_6g : Z;
  SCALE_ACCEL_8g : Z;
  SCALE_ACCEL_16g : Z;
  (* enum LMS303_MAG_SCALE *)
  SCALE_MAG_2gauss : Z;
  SCALE_MAG_4gauss : Z;
  SCALE_MAG_8gauss : Z;
  SCALE_MAG_12gauss : Z;
  (* enum LMS303_ACCEL_FIFO_MODE *)
  ACCEL_FIFO_BYPASS : Z;
  ACCEL_FIFO_STREAM : Z;
  ACCEL_FIFO_ERROR : Z
}.

(** What the compilation target fixes: whether plain [char] is signed (it is
    unsigned under the ARM EABI of the BeagleBone Black the driver is written
    for, signed on x86), and the [atan] of the C library. *)
Class Target : Type := {
  CHAR_IS_SIGNED : bool;
  atan : double -> double
}.

(** ** The I2C character device *)

(** One system call, with its arguments and the value it returned. *)
Inductive syscall : Type :=
| sys_open (bus : Z) (ret : Z)
| sys_ioctl (fd : Z) (address : Z) (ret : Z)
| sys_write (fd : Z) (frame : list byte) (ret : Z)
| sys_read (fd : Z) (size : Z) (ret : Z)
| sys_close (fd : Z).

(** What the kernel answers during one bus transaction (one call of
    [readI2CDevice] or [writeI2CDeviceByte]): the return values of [open],
    [ioctl] and [write], and for [read] either an error ([None]) or the bytes
    the device delivers. *)
Record Reply : Type := mkReply {
  open_ret : Z;
  ioctl_ret : Z;
  write_ret : Z;
  read_bytes : option (list byte)
}.

(** A bus that cannot be opened. *)
Definition no_bus : Reply := mkReply (-1) (-1) (-1) None.

Record World : Type := mkWorld {
  replies : list Reply;     (* answers to the transactions still to come *)
  handles : list Z;         (* descriptors opened and not yet closed *)
  trace : list syscall      (* system calls issued, oldest first *)
}.

Definition next_reply (w : World) : Reply := hd no_bus (replies w).
Definition pop_reply (w : World) : World :=
  mkWorld (tl (replies w)) (handles w) (trace w).
Definition emit (c : syscall) (w : World) : World :=
  mkWorld (replies w) (handles w) (trace w ++ [c]).
Definition acquire (fd : Z) (w : World) : World :=
  mkWorld (replies w) (fd :: handles w) (trace w).
(** [close(fd)] drops one occurrence of [fd] from the open descriptors. *)
Fixpoint remove_first (fd : Z) (l : list Z) : list Z :=
  match l with
  | [] => []
  | x :: l' => if x =? fd then l' else x :: remove_first fd l'
  end.
Definition release (fd : Z) (w : World) : World :=
  mkWorld (replies w) (remove_first fd (handles w)) (trace w).

(** [blit src dst]: [dst] with its first cells overwritten by [src]; cells of
    [src] past the end of [dst] are dropped. *)
Fixpoint blit (src dst : list byte) : list byte :=
  match src, dst with
  | b :: src', _ :: dst' => b :: blit src' dst'
  | _, _ => dst
  end.

(** [read(file, data, size)]: on error nothing is stored and -1 is returned;
    otherwise at most [size] of the delivered bytes are stored at the start
    of [data] and their number is returned. *)
Definition sys_read_into (r : option (list byte)) (data : list byte) (size : Z)
  : Z * list byte :=
  match r with
  | None => (-1, data)
  | Some bs =>
      let got := firstn (Z.to_nat size) bs in
      (Z.of_nat (length got), blit got data)
  end.

(** ** The driver object *)

(** Modelled from the spec: the data members of [class LMS303], which the
    header declares. They are the members the methods use, typed after the
    data model of the specification and the signatures in the source: the
    readings, tilt angles and scale factors are [float] (the
    specification's PhysicalReading and scale factors; what
    [convertAcceleration], [convertMagnetism] and [getTemperature] return),
    the two buffers are arrays of [char] (they are passed to [readI2CDevice]
    as [char data[]]), and [accelFIFOMode] is an enumeration value. *)
Record LMS303 : Type := mkLMS303 {
  I2CBus : Z;
  I2CAddress : Z;
  dataBuffer : list byte;
  accelFIFO : list byte;
  accelX : float;
  accelY : float;
  accelZ : float;
  magX : float;
  magY : float;
  magZ : float;
  celsius : float;
  pitch : float;
  roll : float;
  accelScale : float;
  magScale : float;
  accelFIFOMode : Z
}.

Definition set_dataBuffer (v : list byte) (s : LMS303) : LMS303 :=
  mkLMS303 (I2CBus s) (I2CAddress s) v (accelFIFO s)
           (accelX s) (accelY s) (accelZ s) (magX s) (magY s) (magZ s)
           (celsius s) (pitch s) (roll s) (accelScale s) (magScale s) (accelFIFOMode s).
Definition set_accelFIFO (v : list byte) (s : LMS303) : LMS303 :=
  mkLMS303 (I2CBus s) (I2CAddress s) (dataBuffer s) v
           (accelX s) (accelY s) (accelZ s) (magX s) (magY s) (magZ s)
           (celsius s) (pitch s) (roll s) (accelScale s) (magScale s) (accelFIFOMode s).
Definition set_accelX (v : float) (s : LMS303) : LMS303 :=
  mkLMS303 (I2CBus s) (I2CAddress s) (dataBuffer s) (accelFIFO s)
           v (accelY s) (accelZ s) (magX s) (magY s) (magZ s)
           (celsius s) (pitch s) (roll s) (accelScale s) (magScale s) (accelFIFOMode s).
Definition set_accelY (v : float) (s : LMS303) : LMS303 :=
  mkLMS303 (I2CBus s) (I2CAddress s) (dataBuffer s) (accelFIFO s)
           (accelX s) v (accelZ s) (magX s) (magY s) (magZ s)
           (celsius s) (pitch s) (roll s) (accelScale s) (magScale s) (accelFIFOMode s).
Definition set_accelZ (v : float) (s : LMS303) : LMS303 :=
  mkLMS303 (I2CBus s) (I2CAddress s) (dataBuffer s) (accelFIFO s)
           (accelX s) (accelY s) v (magX s) (magY s) (magZ s)
           (celsius s) (pitch s) (roll s) (accelScale s) (magScale s) (accelFIFOMode s).
Definition set_magX (v : float) (s : LMS303) : LMS303 :=
  mkLMS303 (I2CBus s) (I2CAddress s) (dataBuffer s) (accelFIFO s)
           (accelX s) (accelY s) (accelZ s) v (magY s) (magZ s)
           (celsius s) (pitch s) (roll s) (accelScale s) (magScale s) (accelFIFOMode s).
Definition set_magY (v : float) (s : LMS303) : LMS303 :=
  mkLMS303 (I2CBus s) (I2CAddress s) (dataBuffer s) (accelFIFO s)
           (accelX s) (accelY s) (accelZ s) (magX s) v (magZ s)
           (celsius s) (pitch s) (roll s) (accelScale s) (magScale s) (accelFIFOMode s).
Definition set_magZ (v : float) (s : LMS303) : LMS303 :=
  mkLMS303 (I2CBus s) (I2CAddress s) (dataBuffer s) (accelFIFO s)
           (accelX s) (accelY s) (accelZ s) (magX s) (magY s) v
           (celsius s) (pitch s) (roll s) (accelScale s) (magScale s) (accelFIFOMode s).
Definition set_celsius (v : float) (s : LMS303) : LMS303 :=
  mkLMS303 (I2CBus s) (I2CAddress s) (dataBuffer s) (accelFIFO s)
           (accelX s) (accelY s) (accelZ s) (magX s) (magY s) (magZ s)
           v (pitch s) (roll s) (accelScale s) (magScale s) (accelFIFOMode s).
Definition set_pitch (v : float) (s : LMS303) : LMS303 :=
  mkLMS303 (I2CBus s) (I2CAddress s) (dataBuffer s) (accelFIFO s)
           (accelX s) (accelY s) (accelZ s) (magX s) (magY s) (magZ s)
           (celsius s) v (roll s) (accelScale s) (magScale s) (accelFIFOMode s).
Definition set_roll (v : float) (s : LMS303) : LMS303 :=
  mkLMS303 (I2CBus s) (I2CAddress s) (dataBuffer s) (accelFIFO s)
           (accelX s) (accelY s) (accelZ s) (magX s) (magY s) (magZ s)
           (celsius s) (pitch s) v (accelScale s) (magScale s) (accelFIFOMode s).
Definition set_accelScale (v : float) (s : LMS303) : LMS303 :=
  mkLMS303 (I2CBus s) (I2CAddress s) (dataBuffer s) (accelFIFO s)
           (accelX s) (accelY s) (accelZ s) (magX s) (magY s) (magZ s)
           (celsius s) (pitch s) (roll s) v (magScale s) (accelFIFOMode s).
Definition set_magScale (v : float) (s : LMS303) : LMS303 :=
  mkLMS303 (I2CBus s) (I2CAddress s) (dataBuffer s) (accelFIFO s)
           (accelX s) (accelY s) (accelZ s) (magX s) (magY s) (magZ s)
           (celsius s) (pitch s) (roll s) (accelScale s) v (accelFIFOMode s).
Definition set_accelFIFOMode (v : Z) (s : LMS303) : LMS303 :=
  mkLMS303 (I2CBus s) (I2CAddress s) (dataBuffer s) (accelFIFO s)
           (accelX s) (accelY s) (accelZ s) (magX s) (magY s) (magZ s)
           (celsius s) (pitch s) (roll s) (accelScale s) (magScale s) v.

(** ** Methods as state-passing functions *)

Definition Drv (A : Type) : Type := LMS303 -> World -> A * LMS303 * World.

Definition ret {A} (a : A) : Drv A := fun s w => (a, s, w).
Definition bind {A B} (m : Drv A) (k : A -> Drv B) : Drv B :=
  fun s w => let '(a, s1, w1) := m s w in k a s1 w1.
Definition get : Drv LMS303 := fun s w => (s, s, w).
Definition modify (f : LMS303 -> LMS303) : Drv unit := fun s w => (tt, f s, w).

Notation "x <- m ;; k" := (bind m (fun x => k))
  (at level 61, m at next level, right associativity).
Notation "m ;;; k" := (bind m (fun _ => k))
  (at level 61, right associativity).

Definition result {A} (r : A * LMS303 * World) : A := fst (fst r).
Definition driver {A} (r : A * LMS303 * World) : LMS303 := snd (fst r).
Definition world {A} (r : A * LMS303 * World) : World := snd r.

Section Driver.
Context {H : Header} {T : Target}.

(** The [int] a [char] cell is promoted to. *)
Definition char_val (b : byte) : Z :=
  let u := byte.unsigned b in
  if CHAR_IS_SIGNED then (if u <? 128 then u else u - 256) else u.

(** Conversion of an [int] to [char]: the low 8 bits. *)
Definition to_char (z : Z) : byte := byte.of_Z z.

(** [a[i]] for an array of [char]. Cells outside the array, which the C++
    program must not touch, read as 0 here. *)
Definition cell (a : list byte) (i : Z) : byte := nth (Z.to_nat i) a Byte.x00.

(** *** Register access *)

Definition writeI2CDeviceByte (address value : byte) : Drv Z :=
  fun s w =>
    let r := next_reply w in
    let w := pop_reply w in
    let file := open_ret r in
    let w := emit (sys_open (I2CBus s) file) w in
    if file <? 0 then (1, s, w)
    else
      let w := acquire file w in
      let w := emit (sys_ioctl file (I2CAddress s) (ioctl_ret r)) w in
      if ioctl_ret r <? 0 then (2, s, w)
      else
        let buffer := [address; value] in
        let w := emit (sys_write file buffer (write_ret r)) w in
        if negb (write_ret r =? 2) then (3, s, w)
        else
          let w := release file (emit (sys_close file) w) in
          (0, s, w).

(** [readI2CDevice(address, data, size)]. [data] is the array the pointer
    designates, from the pointed cell to the end of the array; the result
    carries its content after the call. *)
Definition readI2CDevice (address : byte) (data : list byte) (size : Z)
  : Drv (Z * list byte) :=
  fun s w =>
    let r := next_reply w in
    let w := pop_reply w in
    let file := open_ret r in
    let w := emit (sys_open (I2CBus s) file) w in
    if file <? 0 then ((1, data), s, w)
    else
      let w := acquire file w in
      let w := emit (sys_ioctl file (I2CAddress s) (ioctl_ret r)) w in
      if ioctl_ret r <? 0 then ((2, data), s, w)
      else
        let temp := address in
        let temp :=
          if size >? 1 then to_char (Z.lor (char_val temp) 0x80) else temp in
        let buf := [temp] in
        (* a short write of the address is logged, nothing else *)
        let w := emit (sys_write file buf (write_ret r)) w in
        (* so is a short read *)
        let '(n, data) := sys_read_into (read_bytes r) data size in
        let w := emit (sys_read file size n) w in
        let w := release file (emit (sys_close file) w) in
        ((0, data), s, w).

(** [readI2CDevice(reg, &dataBuffer[reg], size)]. *)
Definition readI2CDevice_dataBuffer (reg size : Z) : Drv Z :=
  s <- get ;;
  let off := Z.to_nat reg in
  r <- readI2CDevice (to_char reg) (skipn off (dataBuffer s)) size ;;
  modify (set_dataBuffer (firstn off (dataBuffer s) ++ snd r)) ;;;
  ret (fst r).

(** *** Conversions *)

Definition enableTempSensor : Drv Z :=
  let buf := [Byte.x00] in
  r <- readI2CDevice (to_char REG_CTRL5) buf 1 ;;
  let buf := snd r in
  let buf0 := to_char (Z.lor (char_val (cell buf 0)) 0x80) in
  e <- writeI2CDeviceByte (to_char REG_CTRL5) buf0 ;;
  if negb (e =? 0) then ret 1 else ret 0.

Definition getTemperature : Drv float :=
  s <- get ;;
  let temp :=
    to_short (Z.lor (Z.shiftl (char_val (cell (dataBuffer s) REG_TEMP_OUT_H)) 8)
                    (char_val (cell (dataBuffer s) REG_TEMP_OUT_L))) in
  let sign := Float.of_double (Double.of_int 1) in
  let '(temp, sign) :=
    if negb (Z.land temp 0x0800 =? 0)
    then (to_short (Z.lxor temp 0x0FFF),
          Float.of_double (SFopp (Double.of_int 1)))
    else (to_short (Z.land temp 0x0FFF), sign) in
  let c :=
    Float.add
      (Float.mul sign
         (Float.of_double (Double.div (Double.of_int temp) (Double.of_int 8))))
      (Float.of_int 25) in
  modify (set_celsius c) ;;;
  ret c.

Definition convertMagnetism (msb_reg_addr lsb_reg_addr : Z) : Drv float :=
  s <- get ;;
  let temp := to_short (char_val (cell (dataBuffer s) msb_reg_addr)) in
  let temp :=
    to_short (Z.lor (Z.shiftl temp 8)
                    (char_val (cell (dataBuffer s) lsb_reg_addr))) in
  ret (Float.mul (Float.of_int temp) (magScale s)).

Definition convertAcceleration (msb_reg_addr lsb_reg_addr : Z) : Drv float :=
  s <- get ;;
  let temp := to_short (char_val (cell (dataBuffer s) msb_reg_addr)) in
  let temp :=
    to_short (Z.lor (Z.shiftl temp 8)
                    (char_val (cell (dataBuffer s) lsb_reg_addr))) in
  ret (Float.mul (Float.of_int temp) (accelScale s)).

(** The overload [convertAcceleration(int accel)]. *)
Definition convertAcceleration_int (accel : Z) : Drv float :=
  s <- get ;;
  ret (Float.mul (Float.of_int accel) (accelScale s)).

Definition calculatePitchAndRoll : Drv unit :=
  s <- get ;;
  let accelXSquared := Double.of_float (Float.mul (accelX s) (accelX s)) in
  let accelYSquared := Double.of_float (Float.mul (accelY s) (accelY s)) in
  let accelZSquared := Double.of_float (Float.mul (accelZ s) (accelZ s)) in
  modify (set_pitch (Float.of_double
    (Double.div
       (Double.mul (Double.of_int 180)
          (atan (Double.div (Double.of_float (accelX s))
                   (Double.sqrt (Double.add accelYSquared accelZSquared)))))
       M_PI))) ;;;
  modify (set_roll (Float.of_double
    (Double.div
       (Double.mul (Double.of_int 180)
          (atan (Double.div (Double.of_float (accelY s))
                   (Double.sqrt (Double.add accelXSquared accelZSquared)))))
       M_PI))).

(** *** Scale setters *)

Definition setMagScale (scale : Z) : Drv Z :=
  let buf := to_char (Z.shiftl (char_val (to_char scale)) 5) in
  let buf := to_char (Z.land (char_val buf) 0x60) in
  e <- writeI2CDeviceByte (to_char REG_CTRL6) buf ;;
  if negb (e =? 0) then
    modify (set_magScale (Float.of_int 0)) ;;; ret 1
  else if scale =? SCALE_MAG_2gauss then
    modify (set_magScale (Float.of_double (Double.literal 8 5))) ;;; ret 0
  else if scale =? SCALE_MAG_4gauss then
    modify (set_magScale (Float.of_double (Double.literal 16 5))) ;;; ret 0
  else if scale =? SCALE_MAG_8gauss then
    modify (set_magScale (Float.of_double (Double.literal 32 5))) ;;; ret 0
  else if scale =? SCALE_MAG_12gauss then
    modify (set_magScale (Float.of_double (Double.literal 479 6))) ;;; ret 0
  else
    modify (set_magScale (Float.of_int 0)) ;;; ret 1.

(** [buf] is declared without an initialiser: [uninit] is what it holds
    before the read. *)
Definition setAccelScale (uninit : byte) (scale : Z) : Drv Z :=
  let buf := [uninit] in
  r <- readI2CDevice (to_char REG_CTRL2) buf 1 ;;
  let buf := snd r in
  let buf0 := to_char (Z.land (char_val (cell buf 0)) 199) in
  let buf0 :=
    to_char (Z.lor (char_val buf0) (Z.shiftl (char_val (to_char scale)) 3)) in
  e <- writeI2CDeviceByte (to_char REG_CTRL2) buf0 ;;
  if negb (e =? 0) then
    modify (set_accelScale (Float.of_int 0)) ;;; ret 1
  else if scale =? SCALE_ACCEL_2g then
    modify (set_accelScale (Float.of_double (Double.literal 61 6))) ;;; ret 0
  else if scale =? SCALE_ACCEL_4g then
    modify (set_accelScale (Float.of_double (Double.literal 122 6))) ;;; ret 0
  else if scale =? SCALE_ACCEL_6g then
    modify (set_accelScale (Float.of_double (Double.literal 183 6))) ;;; ret 0
  else if scale =? SCALE_ACCEL_8g then
    modify (set_accelScale (Float.of_double (Double.literal 244 6))) ;;; ret 0
  else if scale =? SCALE_ACCEL_16g then
    modify (set_accelScale (Float.of_double (Double.literal 732 6))) ;;; ret 0
  else
    modify (set_accelScale (Float.of_int 0)) ;;; ret 1.

(** *** Accelerometer FIFO *)

Definition getAccelFIFOMode : Drv Z :=
  let val := [Byte.x00] in
  r <- readI2CDevice (to_char REG_FIFO_CTRL) val 1 ;;
  let val := snd r in
  if char_val (cell val 0) =? 0x00 then ret ACCEL_FIFO_BYPASS
  else if char_val (cell val 0) =? 0x40 then ret ACCEL_FIFO_STREAM
  else ret ACCEL_FIFO_ERROR.

(** The part of [setAccelFIFOMode] that programs the device: the read of
    CTRL0, the [switch] and the write of FIFO_CTRL. *)
Definition setAccelFIFOMode_program (mode : Z) : Drv unit :=
  let val := [Byte.x00] in
  r <- readI2CDevice (to_char REG_CTRL0) val 1 ;;
  let val := snd r in
  val0 <-
    (if mode =? ACCEL_FIFO_BYPASS then ret (to_char 0x00)
     else if mode =? ACCEL_FIFO_STREAM then
       let val0 := to_char 0x40 in
       writeI2CDeviceByte (to_char REG_CTRL0)
                          (to_char (Z.lor (char_val val0) 0x40)) ;;;
       ret val0
     else ret (to_char 0x00)) ;;
  writeI2CDeviceByte (to_char REG_FIFO_CTRL) val0 ;;;
  ret tt.

Definition setAccelFIFOMode (mode : Z) : Drv Z :=
  setAccelFIFOMode_program mode ;;;
  back <- getAccelFIFOMode ;;
  (if negb (back =? mode) then ret tt
   else modify (set_accelFIFOMode mode)) ;;;
  ret 0.

Definition readAccelFIFO : Drv Z :=
  let val := [Byte.x00] in
  r <- readI2CDevice (to_char REG_FIFO_SRC) val 1 ;;
  let val := snd r in
  let val0 := to_char (Z.land (char_val (cell val 0)) 0x0F) in
  s <- get ;;
  f <- readI2CDevice (to_char REG_OUT_X_L_A) (accelFIFO s) ACCEL_FIFO_SIZE ;;
  modify (set_accelFIFO (snd f)) ;;;
  ret (char_val val0 + 1).

(** One axis of one FIFO entry, as the loop body computes it:
    [temp = fifo[hi]; temp = (temp << 8) | fifo[lo]; temp = ~temp + 1]. *)
Definition fifo_sample (fifo : list byte) (hi lo : Z) : Z :=
  let temp := to_short (char_val (cell fifo hi)) in
  let temp := to_short (Z.lor (Z.shiftl temp 8) (char_val (cell fifo lo))) in
  to_short (Z.lnot temp + 1).

(** [n] iterations of the summing loop, from index [i]. *)
Fixpoint averageAccelFIFO_loop (n : nat) (i : Z) (fifo : list byte)
         (sumX sumY sumZ : Z) : Z * Z * Z :=
  match n with
  | O => (sumX, sumY, sumZ)
  | S n' =>
      let tempX := fifo_sample fifo (i * 6 + 1) (i * 6) in
      let tempY := fifo_sample fifo (i * 6 + 3) (i * 6 + 2) in
      let tempZ := fifo_sample fifo (i * 6 + 5) (i * 6 + 4) in
      averageAccelFIFO_loop n' (i + 1) fifo
        (to_int (sumX + tempX)) (to_int (sumY + tempY)) (to_int (sumZ + tempZ))
  end.

Definition averageAccelFIFO (slots : Z) : Drv Z :=
  if slots <=? 0 then ret 1
  else
    s <- get ;;
    let '(sumX, sumY, sumZ) :=
      averageAccelFIFO_loop (Z.to_nat slots) 0 (accelFIFO s) 0 0 0 in
    x <- convertAcceleration_int (Z.quot sumX slots) ;;
    modify (set_accelX x) ;;;
    y <- convertAcceleration_int (Z.quot sumY slots) ;;
    modify (set_accelY y) ;;;
    z <- convertAcceleration_int (Z.quot sumZ slots) ;;
    modify (set_accelZ z) ;;;
    ret 0.

(** *** The poll *)

(** The reads and the acceleration update that precede the identity check. *)
Definition readFullSensorState_fetch : Drv unit :=
  s <- get ;;
  if accelFIFOMode s =? ACCEL_FIFO_STREAM then
    readI2CDevice_dataBuffer REG_TEMP_OUT_L
      ((REG_OUT_Z_H_M - REG_TEMP_OUT_L) + 1) ;;;
    readI2CDevice_dataBuffer REG_WHO_AM_I 1 ;;;
    readI2CDevice_dataBuffer REG_INT_CTRL_M
      ((REG_STATUS_A - REG_INT_CTRL_M) + 1) ;;;
    readI2CDevice_dataBuffer REG_FIFO_CTRL
      (LMS303_I2C_BUFFER - REG_FIFO_CTRL) ;;;
    slotsRead <- readAccelFIFO ;;
    averageAccelFIFO slotsRead ;;;
    ret tt
  else
    readI2CDevice_dataBuffer REG_WHO_AM_I
      (LMS303_I2C_BUFFER - REG_WHO_AM_I) ;;;
    x <- convertAcceleration REG_OUT_X_H_A REG_OUT_X_L_A ;;
    modify (set_accelX x) ;;;
    y <- convertAcceleration REG_OUT_Y_H_A REG_OUT_Y_L_A ;;
    modify (set_accelY y) ;;;
    z <- convertAcceleration REG_OUT_Z_H_A REG_OUT_Z_L_A ;;
    modify (set_accelZ z).

Definition readFullSensorState : Drv Z :=
  readFullSensorState_fetch ;;;
  s <- get ;;
  if negb (char_val (cell (dataBuffer s) REG_WHO_AM_I) =? 0x49) then ret 1
  else
    getTemperature ;;;
    x <- convertMagnetism REG_OUT_X_H_M REG_OUT_X_L_M ;;
    modify (set_magX x) ;;;
    y <- convertMagnetism REG_OUT_Y_H_M REG_OUT_Y_L_M ;;
    modify (set_magY y) ;;;
    z <- convertMagnetism REG_OUT_Z_H_M REG_OUT_Z_L_M ;;
    modify (set_magZ z) ;;;
    calculatePitchAndRoll ;;;
    ret 0.
End Driver.

(** ** What the specification says, in its own words *)

Section Documented.
Context {H : Header} {T : Target}.

(** The calibrated acceleration scale factors for +-2/4/6/8/16 g, each the
    [float] the C++ literal of the documented value denotes. *)
Definition accel_scale_table : list (Z * float) :=
  [ (SCALE_ACCEL_2g, Float.of_double (Double.literal 61 6));
    (SCALE_ACCEL_4g, Float.of_double (Double.literal 122 6));
    (SCALE_ACCEL_6g, Float.of_double (Double.literal 183 6));
    (SCALE_ACCEL_8g, Float.of_double (Double.literal 244 6));
    (SCALE_ACCEL_16g, Float.of_double (Double.literal 732 6)) ].

(** The calibrated magnetic scale factors for +-2/4/8/12 gauss. *)
Definition mag_scale_table : list (Z * float) :=
  [ (SCALE_MAG_2gauss, Float.of_double (Double.literal 8 5));
    (SCALE_MAG_4gauss, Float.of_double (Double.literal 16 5));
    (SCALE_MAG_8gauss, Float.of_double (Double.literal 32 5));
    (SCALE_MAG_12gauss, Float.of_double (Double.literal 479 6)) ].

(** The three steps of a write transaction all succeed. *)
Definition write_succeeds (r : Reply) : Prop :=
  0 <= open_ret r /\ 0 <= ioctl_ret r /\ write_ret r = 2.

(** The scale-setter property as the specification words it: a valid
    enumerator always yields its constant and success, any other input
    yields 0 and an error. *)
Definition scale_setters_as_specified : Prop :=
  forall uninit scale s w,
    (forall c, In (scale, c) accel_scale_table ->
       result (setAccelScale uninit scale s w) = 0 /\
       accelScale (driver (setAccelScale uninit scale s w)) = c) /\
    (forall c, In (scale, c) mag_scale_table ->
       result (setMagScale scale s w) = 0 /\
       magScale (driver (setMagScale scale s w)) = c) /\
    (~ In scale (map fst accel_scale_table) ->
       result (setAccelScale uninit scale s w) = 1 /\
       accelScale (driver (setAccelScale uninit scale s w)) = Float.of_int 0) /\
    (~ In scale (map fst mag_scale_table) ->
       result (setMagScale scale s w) = 1 /\
       magScale (driver (setMagScale scale s w)) = Float.of_int 0).
End Documented.

Section Geometry.
Context {T : Target}.

(** Radians to degrees: [180 * a / pi]. *)
Definition degrees (a : double) : double :=
  Double.div (Double.mul (Double.of_int 180) a) M_PI.

(** The square of a reading, as a [double]. *)
Definition squared (x : float) : double := Double.of_float (Float.mul x x).

(** [degrees(atan(x / sqrt(y^2 + z^2)))], stored as a [float]. *)
Definition tilt (x y z : float) : float :=
  Float.of_double
    (degrees (atan (Double.div (Double.of_float x)
                      (Double.sqrt (Double.add (squared y) (squared z)))))).
End Geometry.

(** The driver object [s] with the acceleration reading replaced. *)
Definition with_accel (x y z : float) (s : LMS303) : LMS303 :=
  set_accelZ z (set_accelY y (set_accelX x s)).

(** *** The FIFO average, as the specification words it *)

(** The 16-bit value [(high << 8) | low] of axis [a] (0, 1, 2 for X, Y, Z) of
    FIFO entry [i]: an entry is 6 bytes, each axis a low byte followed by a
    high byte. *)
Definition sample16 (fifo : list byte) (i a : Z) : Z :=
  let low := nth (Z.to_nat (6 * i + 2 * a)) fifo Byte.x00 in
  let high := nth (Z.to_nat (6 * i + 2 * a + 1)) fifo Byte.x00 in
  Z.lor (Z.shiftl (byte.unsigned high) 8) (byte.unsigned low).

(** Negation as one's complement plus one on 16 bits; the 16 bits are then
    read as a signed number. *)
Definition negate16 (v : Z) : Z :=
  let u := (Z.lxor v 0xFFFF + 1) mod 65536 in
  if u <? 32768 then u else u - 65536.

(** Sum of the negated samples of axis [a] over entries [from], ...,
    [from + n - 1]. *)
Definition negated_sum (fifo : list byte) (from n : nat) (a : Z) : Z :=
  fold_right Z.add 0
    (map (fun i => negate16 (sample16 fifo (Z.of_nat i) a)) (seq from n)).

(** The truncating quotient of the sum over the first [slots] entries by
    [slots]. *)
Definition fifo_average (fifo : list byte) (slots : Z) (a : Z) : Z :=
  Z.quot (negated_sum fifo 0 (Z.to_nat slots) a) slots.

Section Poll.
Context {H : Header} {T : Target}.

(** The byte of the identity register in the register image once the poll
    has done its reads. *)
Definition identity_read (s : LMS303) (w : World) : byte :=
  cell (dataBuffer (driver (readFullSensorState_fetch s w))) REG_WHO_AM_I.

(** The identity-mismatch property as the specification words it: the poll
    reports the loss of synchronisation and no field of the physical
    reading has changed. *)
Definition sync_error_as_specified : Prop :=
  forall s w,
    identity_read s w <> Byte.x49 ->
    let r := readFullSensorState s w in
    result r = 1 /\
    accelX (driver r) = accelX s /\
    accelY (driver r) = accelY s /\
    accelZ (driver r) = accelZ s /\
    magX (driver r) = magX s /\
    magY (driver r) = magY s /\
    magZ (driver r) = magZ s /\
    celsius (driver r) = celsius s /\
    pitch (driver r) = pitch s /\
    roll (driver r) = roll s.

(** The fields of the reading that the reads and the acceleration update
    never write. *)
Definition same_mag_temp_tilt (s s' : LMS303) : Prop :=
  magX s' = magX s /\ magY s' = magY s /\ magZ s' = magZ s /\
  celsius s' = celsius s /\ pitch s' = pitch s /\ roll s' = roll s.
End Poll.

(** ** A concrete header, target and device, to run the model *)

(** The register map of the LSM303D data sheet, a 0x40-byte register image,
    a FIFO of 32 entries of 6 bytes, and enumerators numbered in the order of
    the data sheet's bit fields. *)
#[local] Instance LSM303D : Header := {|
  LMS303_I2C_BUFFER := 0x40;
  ACCEL_FIFO_SIZE := 32 * 6;
  REG_TEMP_OUT_L := 0x05;
  REG_TEMP_OUT_H := 0x06;
  REG_OUT_X_L_M := 0x08;
  REG_OUT_X_H_M := 0x09;
  REG_OUT_Y_L_M := 0x0A;
  REG_OUT_Y_H_M := 0x0B;
  REG_OUT_Z_L_M := 0x0C;
  REG_OUT_Z_H_M := 0x0D;
  REG_WHO_AM_I := 0x0F;
  REG_INT_CTRL_M := 0x12;
  REG_CTRL0 := 0x1F;
  REG_CTRL2 := 0x21;
  REG_CTRL5 := 0x24;
  REG_CTRL6 := 0x25;
  REG_STATUS_A := 0x27;
  REG_OUT_X_L_A := 0x28;
  REG_OUT_X_H_A := 0x29;
  REG_OUT_Y_L_A := 0x2A;
  REG_OUT_Y_H_A := 0x2B;
  REG_OUT_Z_L_A := 0x2C;
  REG_OUT_Z_H_A := 0x2D;
  REG_FIFO_CTRL := 0x2E;
  REG_FIFO_SRC := 0x2F;
  SCALE_ACCEL_2g := 0;
  SCALE_ACCEL_4g := 1;
  SCALE_ACCEL_6g := 2;
  SCALE_ACCEL_8g := 3;
  SCALE_ACCEL_16g := 4;
  SCALE_MAG_2gauss := 0;
  SCALE_MAG_4gauss := 1;
  SCALE_MAG_8gauss := 2;
  SCALE_MAG_12gauss := 3;
  ACCEL_FIFO_BYPASS := 0;
  ACCEL_FIFO_STREAM := 1;
  ACCEL_FIFO_ERROR := 2
|}.

(** An arc tangent that is right where Annex F of the C standard fixes the
    result ([atan(+-0) = +-0], [atan(+-inf) = +-pi/2], NaN to NaN) and is the
    identity elsewhere. It only serves to run the model at those arguments. *)
Definition atan_annex_f (x : double) : double :=
  match x with
  | S754_infinity s =>
      let h := Double.div M_PI (Double.of_int 2) in
      if s then SFopp h else h
  | _ => x
  end.

(** The BeagleBone Black: ARM EABI, plain [char] is unsigned. *)
#[local] Instance arm_eabi : Target := {|
  CHAR_IS_SIGNED := false;
  atan := atan_annex_f
|}.

(** A target where plain [char] is signed. *)
#[local] Instance signed_char_target : Target := {|
  CHAR_IS_SIGNED := true;
  atan := atan_annex_f
|}.

Definition zeros (n : nat) : list byte := repeat Byte.x00 n.

(** The driver object with cleared buffers and readings, the scale of
    [SCALE_ACCEL_8g] and [SCALE_MAG_8gauss], in FIFO mode [mode]. *)
Definition fresh (mode : Z) : LMS303 :=
  let zero := S754_zero false in
  mkLMS303 1 0x1d (zeros 64) (zeros 192)
           zero zero zero zero zero zero
           zero zero zero
           (Float.of_double (Double.literal 244 6))
           (Float.of_double (Double.literal 32 5))
           mode.

(** A read transaction in which every system call succeeds and the device
    delivers [bs]. Descriptor 3 is the first one free in a process. *)
Definition read_ok (bs : list byte) : Reply := mkReply 3 0 1 (Some bs).

(** A write transaction in which every system call succeeds. *)
Definition write_ok : Reply := mkReply 3 0 2 None.

(** The device does not acknowledge its address: [ioctl] fails. *)
Definition select_fails : Reply := mkReply 3 (-1) (-1) None.

(** The bus is opened and the device selected, then the transfer fails. *)
Definition transfer_fails : Reply := mkReply 3 0 (-1) None.

Definition idle (rs : list Reply) : World := mkWorld rs [] [].

(** Four FIFO entries whose X samples are 1, 2, 3 and 0xFFFE, the Y and Z
    samples being 0, followed by cleared entries. *)
Definition four_samples (s : LMS303) : LMS303 :=
  set_accelFIFO
    ([Byte.x01; Byte.x00; Byte.x00; Byte.x00; Byte.x00; Byte.x00;
      Byte.x02; Byte.x00; Byte.x00; Byte.x00; Byte.x00; Byte.x00;
      Byte.x03; Byte.x00; Byte.x00; Byte.x00; Byte.x00; Byte.x00;
      Byte.xfe; Byte.xff; Byte.x00; Byte.x00; Byte.x00; Byte.x00]
     ++ zeros 168) s.

(** A device out of step in stream mode: every transfer succeeds, the
    identity register reads 0x00 instead of 0x49, FIFO_SRC reports one entry
    and that entry holds the X sample 1. *)
Definition out_of_step : World :=
  idle [ read_ok (zeros 9);           (* TEMP_OUT_L .. OUT_Z_H_M *)
         read_ok [Byte.x00];          (* WHO_AM_I *)
         read_ok (zeros 22);          (* INT_CTRL_M .. STATUS_A *)
         read_ok (zeros 18);          (* FIFO_CTRL .. end of the map *)
         read_ok [Byte.x00];          (* FIFO_SRC *)
         read_ok ([Byte.x01; Byte.x00] ++ zeros 190) ].

(** A device in step in stream mode: the temperature registers hold 8
    counts, the identity register 0x49, FIFO_SRC reports one entry and that
    entry holds the Z sample 0xF000. *)
Definition in_step : World :=
  idle [ read_ok ([Byte.x08; Byte.x00] ++ zeros 7);
         read_ok [Byte.x49];
         read_ok (zeros 22);
         read_ok (zeros 18);
         read_ok [Byte.x00];
         read_ok ([Byte.x00; Byte.x00; Byte.x00; Byte.x00; Byte.x00; Byte.xf0]
                  ++ zeros 186) ].

(** * The rest of the driver: configuration and construction *)

(** The macros and enumerators of [imu/LMS303.h] that only the configuration
    methods use; parameters like those of [Header]. *)
Class ControlHeader : Type := {
  REG_CTRL1 : Z;
  REG_CTRL3 : Z;
  REG_CTRL4 : Z;
  REG_CTRL7 : Z;
  (* enum LMS303_MAG_DATA_RATE *)
  DR_MAG_100HZ : Z;
  (* enum LMS303_ACCEL_DATA_RATE *)
  DR_ACCEL_16OOHZ : Z;
  DR_ACCEL_ERROR : Z
}.

(** [memset(a, 0, n)] on an array of [char]. *)
Definition memset0 (n : Z) (a : list byte) : list byte :=
  blit (repeat Byte.x00 (Z.to_nat n)) a.

Section Configuration.
Context {H : Header} {C : ControlHeader} {T : Target}.

(** [sleep(1)] changes neither the driver object nor the bus and is left
    out. *)
Definition reset : Drv Z :=
  writeI2CDeviceByte (to_char REG_CTRL0) (to_char 0x80) ;;;
  writeI2CDeviceByte (to_char REG_CTRL1) (to_char 0x00) ;;;
  writeI2CDeviceByte (to_char REG_CTRL2) (to_char 0x00) ;;;
  writeI2CDeviceByte (to_char REG_CTRL3) (to_char 0x00) ;;;
  writeI2CDeviceByte (to_char REG_CTRL4) (to_char 0x00) ;;;
  writeI2CDeviceByte (to_char REG_CTRL5) (to_char 0x00) ;;;
  writeI2CDeviceByte (to_char REG_CTRL6) (to_char 0x00) ;;;
  writeI2CDeviceByte (to_char REG_CTRL7) (to_char 0x00) ;;;
  writeI2CDeviceByte (to_char REG_FIFO_CTRL) (to_char 0x00) ;;;
  writeI2CDeviceByte (to_char REG_FIFO_SRC) (to_char 0x00) ;;;
  s <- get ;;
  modify (set_dataBuffer (memset0 LMS303_I2C_BUFFER (dataBuffer s))) ;;;
  s <- get ;;
  modify (set_accelFIFO (memset0 ACCEL_FIFO_SIZE (accelFIFO s))) ;;;
  ret 0.

Definition setMagDataRate (dataRate : Z) : Drv Z :=
  let buf := [Byte.x00] in
  r <- readI2CDevice (to_char REG_CTRL5) buf 1 ;;
  let buf := snd r in
  let buf0 := to_char (Z.land (char_val (cell buf 0)) 0x83) in
  let buf0 := to_char (Z.lor (char_val buf0) 0x60) in
  let buf0 :=
    to_char (Z.lor (char_val buf0) (Z.shiftl (char_val (to_char dataRate)) 2)) in
  e <- writeI2CDeviceByte (to_char REG_CTRL5) buf0 ;;
  if negb (e =? 0) then ret 1 else ret 0.

Definition enableMagnetometer : Drv Z :=
  setMagDataRate DR_MAG_100HZ ;;;
  setMagScale SCALE_MAG_8gauss ;;;
  let buf := [Byte.x00] in
  r <- readI2CDevice (to_char REG_CTRL7) buf 1 ;;
  let buf := snd r in
  let buf0 := to_char (Z.land (char_val (cell buf 0)) 0xF8) in
  e <- writeI2CDeviceByte (to_char REG_CTRL7) buf0 ;;
  if negb (e =? 0) then ret 1 else ret 0.

(** [buf] is declared without an initialiser: [uninit] is what it holds
    before the read. *)
Definition setAccelDataRate (uninit : byte) (dataRate : Z) : Drv Z :=
  let buf := [uninit] in
  r <- readI2CDevice (to_char REG_CTRL1) buf 1 ;;
  let buf := snd r in
  let buf0 := to_char (Z.land (char_val (cell buf 0)) 0x0F) in
  let buf0 :=
    to_char (Z.lor (char_val buf0) (Z.shiftl (char_val (to_char dataRate)) 4)) in
  e <- writeI2CDeviceByte (to_char REG_CTRL1) buf0 ;;
  if negb (e =? 0) then ret 1 else ret 0.

(** Again [buf] has no initialiser. The enumeration value returned is the
    [char] read, converted as it is. *)
Definition getAccelDataRate (uninit : byte) : Drv Z :=
  let buf := [uninit] in
  r <- readI2CDevice (to_char REG_CTRL1) buf 1 ;;
  if negb (fst r =? 0) then ret DR_ACCEL_ERROR
  else ret (char_val (cell (snd r) 0)).

(** [uninit_rate] and [uninit_scale] are the uninitialised buffers of
    [setAccelDataRate] and [setAccelScale]. *)
Definition enableAccelerometer (uninit_rate uninit_scale : byte) : Drv Z :=
  setAccelDataRate uninit_rate DR_ACCEL_16OOHZ ;;;
  setAccelScale uninit_scale SCALE_ACCEL_8g ;;;
  setAccelFIFOMode ACCEL_FIFO_STREAM ;;;
  let buf := [Byte.x00] in
  r <- readI2CDevice (to_char REG_CTRL1) buf 1 ;;
  let buf := snd r in
  let buf0 := to_char (Z.lor (char_val (cell buf 0)) 0x07) in
  e <- writeI2CDeviceByte (to_char REG_CTRL1) buf0 ;;
  if negb (e =? 0) then ret 1 else ret 0.

(** The constructor [LMS303(bus, address)]. [raw] is the object before
    construction: the members the constructor does not assign keep what
    [raw] holds. The result of the first poll is dropped. *)
Definition LMS303_new (bus address : Z) (raw : LMS303)
           (uninit_rate uninit_scale : byte) (w : World) : LMS303 * World :=
  let s :=
    mkLMS303 bus address (dataBuffer raw) (accelFIFO raw)
             (Float.of_int 0) (Float.of_int 0) (Float.of_int 0)
             (magX raw) (magY raw) (magZ raw)
             (celsius raw) (Float.of_int 0) (Float.of_int 0)
             (accelScale raw) (magScale raw) (accelFIFOMode raw) in
  let r :=
    (reset ;;;
     enableMagnetometer ;;;
     enableAccelerometer uninit_rate uninit_scale ;;;
     enableTempSensor ;;;
     readFullSensorState) s w in
  (driver r, world r).
End Configuration.

(** ** Observations on a run *)

(** The register writes handed to [write]: the two-byte frames
    [register, value] of a trace, oldest first. *)
Definition register_writes (tr : list syscall) : list (byte * byte) :=
  flat_map (fun c => match c with
                     | sys_write _ [a; v] _ => [(a, v)]
                     | _ => []
                     end) tr.

(** The bus is opened and the device selected. *)
Definition selected (r : Reply) : Prop := 0 <= open_ret r /\ 0 <= ioctl_ret r.

(** The bus cannot be opened. *)
Definition unopened (r : Reply) : Prop := open_ret r < 0.

(** [m] performs exactly [k] bus transactions, whatever their outcome. *)
Definition transactions {A} (m : Drv A) (k : nat) : Prop :=
  forall s w, replies (world (m s w)) = skipn k (replies w).

(** The next [k] transactions all get past [open] and [ioctl]. *)
Definition all_selected (k : nat) (w : World) : Prop :=
  forall i, (i < k)%nat -> selected (nth i (replies w) no_bus).

(** On a bus where its [k] transactions all get past [open] and [ioctl],
    [m] hands exactly the register writes [l] to [write], in this order. *)
Definition writes_selected {A} (m : Drv A) (k : nat) (l : list (byte * byte))
  : Prop :=
  forall s w, all_selected k w ->
    register_writes (trace (world (m s w))) = register_writes (trace w) ++ l.

(** A 16-bit pattern read as two's complement. *)
Definition signed16 (v : Z) : Z := if v <? 32768 then v else v - 65536.

Section PollWindows.
Context {H : Header}.

(** The windows [(first register, byte count)] of the register image that a
    poll reads from the device, by mode. *)
Definition poll_windows (stream : bool) : list (Z * Z) :=
  if stream then
    [ (REG_TEMP_OUT_L, (REG_OUT_Z_H_M - REG_TEMP_OUT_L) + 1);
      (REG_WHO_AM_I, 1);
      (REG_INT_CTRL_M, (REG_STATUS_A - REG_INT_CTRL_M) + 1);
      (REG_FIFO_CTRL, LMS303_I2C_BUFFER - REG_FIFO_CTRL) ]
  else
    [ (REG_WHO_AM_I, LMS303_I2C_BUFFER - REG_WHO_AM_I) ].

(** Register [i] lies in no window of [ws], and every window starts at a
    valid index. *)
Definition outside_windows (ws : list (Z * Z)) (i : Z) : Prop :=
  Forall (fun p => 0 <= fst p /\ ~ (fst p <= i < fst p + snd p)) ws.

(** The temperature and magnetometer output registers. *)
Definition temp_mag_registers : list Z :=
  [ REG_TEMP_OUT_L; REG_TEMP_OUT_H;
    REG_OUT_X_L_M; REG_OUT_X_H_M; REG_OUT_Y_L_M; REG_OUT_Y_H_M;
    REG_OUT_Z_L_M; REG_OUT_Z_H_M ].
End PollWindows.

(** The rest of the LSM303D register map and data-rate codes of the data
    sheet. *)
#[local] Instance LSM303D_control : ControlHeader := {|
  REG_CTRL1 := 0x20;
  REG_CTRL3 := 0x22;
  REG_CTRL4 := 0x23;
  REG_CTRL7 := 0x26;
  DR_MAG_100HZ := 5;
  DR_ACCEL_16OOHZ := 10;
  DR_ACCEL_ERROR := 11
|}.

(** ** The enable bit of the temperature sensor, as the specification words it *)

Section EnableBit.
Context {H : Header} {T : Target}.


End EnableBit.

(** * Properties *)

Section Properties.
Context {H : Header} {T : Target}.

(** ** Bytes and machine integers *)

Lemma char_val_range (b : byte) : -128 <= char_val b < 256.
Proof.
  unfold char_val. pose proof (byte.unsigned_range b).
  destruct CHAR_IS_SIGNED; [destruct (Z.ltb_spec (byte.unsigned b) 128)|]; lia.
Qed.

Lemma to_char_char_val (b : byte) : to_char (char_val b) = b.
Proof.
  unfold to_char, char_val. apply byte.unsigned_inj.
  rewrite byte.unsigned_of_Z. pose proof (byte.unsigned_range b).
  unfold byte.wrap.
  destruct CHAR_IS_SIGNED; [destruct (Z.ltb_spec (byte.unsigned b) 128)|].
  - apply Z.mod_small; lia.
  - replace (byte.unsigned b - 256) with (byte.unsigned b + (-1) * 2 ^ 8) by lia.
    rewrite Z.mod_add by lia. apply Z.mod_small; lia.
  - apply Z.mod_small; lia.
Qed.

Lemma char_val_unsigned (b : byte) :
  CHAR_IS_SIGNED = false -> char_val b = byte.unsigned b.
Proof. unfold char_val. intros ->. reflexivity. Qed.

Lemma remove_first_head (fd : Z) (l : list Z) : remove_first fd (fd :: l) = l.
Proof. simpl. rewrite Z.eqb_refl. reflexivity. Qed.

(** ** Register access *)

(** A transaction that runs to its end leaves the set of open descriptors as
    it found it. *)
Lemma writeI2CDeviceByte_success_releases address value s w :
  result (writeI2CDeviceByte address value s w) = 0 ->
  handles (world (writeI2CDeviceByte address value s w)) = handles w.
Proof.
  unfold writeI2CDeviceByte, result, world.
  destruct (open_ret (next_reply w) <? 0); simpl; [lia|].
  destruct (ioctl_ret (next_reply w) <? 0); simpl; [lia|].
  destruct (write_ret (next_reply w) =? 2); simpl; [|lia].
  intros _. now rewrite Z.eqb_refl.
Qed.

Lemma readI2CDevice_selected_releases address data size s w :
  0 <= open_ret (next_reply w) -> 0 <= ioctl_ret (next_reply w) ->
  handles (world (readI2CDevice address data size s w)) = handles w.
Proof.
  intros Hopen Hsel. unfold readI2CDevice, world.
  destruct (Z.ltb_spec (open_ret (next_reply w)) 0); [lia|].
  destruct (Z.ltb_spec (ioctl_ret (next_reply w)) 0); [lia|].
  simpl. destruct (sys_read_into _ _ _). simpl. now rewrite Z.eqb_refl.
Qed.

(** C5 (the code departs from the claim): [writeI2CDeviceByte] returns
    without closing the descriptor it opened when the address selection
    fails (result 2) and when the write fails (result 3), and
    [readI2CDevice] does so when the address selection fails: after the
    call the descriptor is still among the open handles. *)
Theorem i2c_handle_left_open address value data size s w :
  0 <= open_ret (next_reply w) ->
  (ioctl_ret (next_reply w) < 0 ->
     result (writeI2CDeviceByte address value s w) = 2 /\
     handles (world (writeI2CDeviceByte address value s w))
       = open_ret (next_reply w) :: handles w) /\
  (0 <= ioctl_ret (next_reply w) -> write_ret (next_reply w) <> 2 ->
     result (writeI2CDeviceByte address value s w) = 3 /\
     handles (world (writeI2CDeviceByte address value s w))
       = open_ret (next_reply w) :: handles w) /\
  (ioctl_ret (next_reply w) < 0 ->
     fst (result (readI2CDevice address data size s w)) = 2 /\
     handles (world (readI2CDevice address data size s w))
       = open_ret (next_reply w) :: handles w).
Proof.
  intros Hopen.
  unfold writeI2CDeviceByte, readI2CDevice, result, world.
  destruct (Z.ltb_spec (open_ret (next_reply w)) 0) as [?|_]; [lia|].
  repeat split; intros;
    destruct (Z.ltb_spec (ioctl_ret (next_reply w)) 0); try lia;
    try reflexivity;
    destruct (Z.eqb_spec (write_ret (next_reply w)) 2); try lia;
    reflexivity.
Qed.

(** C6 (the code departs from the claim): when the bus is opened and the
    device selected, [readI2CDevice] returns 0 whatever [read] returns, in
    particular when [read] fails or delivers fewer than [size] bytes. *)
Theorem readI2CDevice_read_failure_returns_0 address data size s w :
  0 <= open_ret (next_reply w) ->
  0 <= ioctl_ret (next_reply w) ->
  fst (sys_read_into (read_bytes (next_reply w)) data size) <> size ->
  fst (result (readI2CDevice address data size s w)) = 0.
Proof.
  intros Hopen Hsel _.
  unfold readI2CDevice, result.
  destruct (Z.ltb_spec (open_ret (next_reply w)) 0); [lia|].
  destruct (Z.ltb_spec (ioctl_ret (next_reply w)) 0); [lia|].
  simpl. destruct (sys_read_into _ _ _). reflexivity.
Qed.

Lemma readI2CDevice_driver address data size s w :
  driver (readI2CDevice address data size s w) = s.
Proof.
  unfold readI2CDevice, driver.
  destruct (open_ret (next_reply w) <? 0); [reflexivity|].
  destruct (ioctl_ret (next_reply w) <? 0); [reflexivity|].
  simpl. destruct (sys_read_into _ _ _). reflexivity.
Qed.

Lemma writeI2CDeviceByte_driver address value s w :
  driver (writeI2CDeviceByte address value s w) = s.
Proof.
  unfold writeI2CDeviceByte, driver.
  destruct (open_ret (next_reply w) <? 0); [reflexivity|].
  destruct (ioctl_ret (next_reply w) <? 0); [reflexivity|].
  destruct (write_ret (next_reply w) =? 2); reflexivity.
Qed.

(** ** The accelerometer FIFO *)

Lemma fifo_slot_field (v : byte) :
  char_val (to_char (Z.land (char_val v) 0x0F)) = Z.land (byte.unsigned v) 0x0F.
Proof. unfold char_val. destruct CHAR_IS_SIGNED, v; reflexivity. Qed.

Lemma fifo_slot_field_range (v : byte) : 0 <= Z.land (byte.unsigned v) 0x0F <= 15.
Proof. destruct v; vm_compute; split; discriminate. Qed.

Lemma averageAccelFIFO_result slots s w :
  result (averageAccelFIFO slots s w) = if slots <=? 0 then 1 else 0.
Proof.
  unfold averageAccelFIFO. destruct (slots <=? 0); [reflexivity|].
  unfold bind, get, result.
  destruct (averageAccelFIFO_loop _ _ _ _ _ _) as [[sx sy] sz]. reflexivity.
Qed.

(** C9: [readAccelFIFO] returns the low four bits of the byte obtained from
    FIFO_SRC plus one, a number from 1 to 16, and [averageAccelFIFO] called
    with that number, as [readFullSensorState] does, never takes its
    [slots <= 0] exit (the one that returns 1). *)
Theorem readAccelFIFO_count s w :
  let src :=
    cell (snd (result (readI2CDevice (to_char REG_FIFO_SRC) [Byte.x00] 1 s w))) 0 in
  let r := readAccelFIFO s w in
  result r = Z.land (byte.unsigned src) 0x0F + 1 /\
  1 <= result r <= 16 /\
  result (averageAccelFIFO (result r) (driver r) (world r)) = 0.
Proof.
  intros src r.
  assert (E : result r = Z.land (byte.unsigned src) 0x0F + 1).
  { subst r src. unfold readAccelFIFO, bind, get, modify, ret, result.
    destruct (readI2CDevice (to_char REG_FIFO_SRC) _ _ s w) as [[[e val] s1] w1].
    destruct (readI2CDevice (to_char REG_OUT_X_L_A) _ _ s1 w1) as [[f s2] w2].
    simpl. now rewrite fifo_slot_field. }
  pose proof (fifo_slot_field_range src) as B.
  split; [exact E|]. split; [lia|].
  rewrite averageAccelFIFO_result.
  destruct (Z.leb_spec (result r) 0); [lia|reflexivity].
Qed.

Lemma getAccelFIFOMode_driver s w : driver (getAccelFIFOMode s w) = s.
Proof.
  unfold getAccelFIFOMode, bind, driver.
  pose proof (readI2CDevice_driver (to_char REG_FIFO_CTRL) [Byte.x00] 1 s w) as D.
  unfold driver in D.
  destruct (readI2CDevice _ _ _ s w) as [[[e val] s1] w1]. simpl in D. subst s1.
  destruct (_ =? 0); [reflexivity|]. destruct (_ =? 64); reflexivity.
Qed.

Lemma setAccelFIFOMode_program_driver mode s w :
  driver (setAccelFIFOMode_program mode s w) = s.
Proof.
  unfold setAccelFIFOMode_program, bind, ret, driver.
  pose proof (readI2CDevice_driver (to_char REG_CTRL0) [Byte.x00] 1 s w) as D.
  unfold driver in D.
  destruct (readI2CDevice _ _ _ s w) as [[[e val] s1] w1]. simpl in D. subst s1.
  destruct (mode =? ACCEL_FIFO_BYPASS).
  - pose proof (writeI2CDeviceByte_driver (to_char REG_FIFO_CTRL) (to_char 0) s w1) as D.
    unfold driver in D. destruct (writeI2CDeviceByte _ _ s w1) as [[e1 s1] w2].
    exact D.
  - destruct (mode =? ACCEL_FIFO_STREAM).
    + pose proof (writeI2CDeviceByte_driver (to_char REG_CTRL0)
                    (to_char (Z.lor (char_val (to_char 64)) 64)) s w1) as D.
      unfold driver in D. destruct (writeI2CDeviceByte _ _ s w1) as [[e1 s1] w2].
      simpl in D. subst s1.
      pose proof (writeI2CDeviceByte_driver (to_char REG_FIFO_CTRL) (to_char 64) s w2) as D.
      unfold driver in D. destruct (writeI2CDeviceByte _ _ s w2) as [[e2 s2] w3].
      exact D.
    + pose proof (writeI2CDeviceByte_driver (to_char REG_FIFO_CTRL) (to_char 0) s w1) as D.
      unfold driver in D. destruct (writeI2CDeviceByte _ _ s w1) as [[e1 s1] w2].
      exact D.
Qed.

(** C10: [setAccelFIFOMode] always returns 0; the cached [accelFIFOMode]
    becomes the requested mode when the mode read back by
    [getAccelFIFOMode], after the device has been programmed, is the
    requested one, and keeps its former value otherwise. *)
Theorem setAccelFIFOMode_cache mode s w :
  let p := setAccelFIFOMode_program mode s w in
  let back := result (getAccelFIFOMode (driver p) (world p)) in
  let r := setAccelFIFOMode mode s w in
  result r = 0 /\
  accelFIFOMode (driver r) = (if back =? mode then mode else accelFIFOMode s).
Proof.
  intros p back r. subst r back.
  pose proof (setAccelFIFOMode_program_driver mode s w) as Dp. fold p in Dp.
  unfold setAccelFIFOMode, bind, ret, modify, result, driver, world in *.
  fold p. destruct p as [[u s1] w1]. simpl in Dp. subst s1. simpl.
  pose proof (getAccelFIFOMode_driver s w1) as Dg. unfold driver in Dg.
  destruct (getAccelFIFOMode s w1) as [[back s2] w2]. simpl in Dg. subst s2.
  simpl. destruct (back =? mode); simpl; split; reflexivity.
Qed.

(** ** The temperature sensor enable bit *)




(** When the read of CTRL5 fails, its result is not looked at: the buffer
    still holds its initial 0 and the byte written is 0x80. *)
Lemma enableTempSensor_after_failed_read s w r1 r2 rest :
  replies w = r1 :: r2 :: rest ->
  0 <= open_ret r1 -> 0 <= ioctl_ret r1 -> read_bytes r1 = None ->
  0 <= open_ret r2 -> 0 <= ioctl_ret r2 ->
  In (sys_write (open_ret r2) [to_char REG_CTRL5; Byte.x80] (write_ret r2))
     (trace (world (enableTempSensor s w))).
Proof.
  intros Hw O1 I1 R1 O2 I2.
  destruct w as [rs hs tr]. simpl in Hw. subst rs.
  unfold enableTempSensor, bind, ret, readI2CDevice, writeI2CDeviceByte,
    world, next_reply, pop_reply, emit, acquire, release. simpl.
  destruct (Z.ltb_spec (open_ret r1) 0); [lia|].
  destruct (Z.ltb_spec (ioctl_ret r1) 0); [lia|].
  rewrite R1. simpl.
  destruct (Z.ltb_spec (open_ret r2) 0); [lia|].
  destruct (Z.ltb_spec (ioctl_ret r2) 0); [lia|].
  replace (to_char (Z.lor (char_val Byte.x00) 128)) with Byte.x80
    by (unfold char_val; destruct CHAR_IS_SIGNED; reflexivity).
  destruct (write_ret r2 =? 2); simpl; rewrite !in_app_iff; simpl; tauto.
Qed.

(** ** Scale setters *)

Lemma writeI2CDeviceByte_result address value s w :
  (write_succeeds (next_reply w) ->
     result (writeI2CDeviceByte address value s w) = 0) /\
  (~ write_succeeds (next_reply w) ->
     result (writeI2CDeviceByte address value s w) <> 0).
Proof.
  unfold write_succeeds, writeI2CDeviceByte, result.
  destruct (Z.ltb_spec (open_ret (next_reply w)) 0);
    [simpl; split; intros; lia|].
  destruct (Z.ltb_spec (ioctl_ret (next_reply w)) 0);
    [simpl; split; intros; lia|].
  destruct (Z.eqb_spec (write_ret (next_reply w)) 2); simpl; split; intros;
    try lia; tauto.
Qed.

Lemma readI2CDevice_replies address data size s w :
  replies (world (readI2CDevice address data size s w)) = tl (replies w).
Proof.
  unfold readI2CDevice, world.
  destruct (open_ret (next_reply w) <? 0); [reflexivity|].
  destruct (ioctl_ret (next_reply w) <? 0); [reflexivity|].
  simpl. destruct (sys_read_into _ _ _). reflexivity.
Qed.

Lemma nth_1_hd_tl {A} (l : list A) (d : A) : nth 1 l d = hd d (tl l).
Proof. destruct l as [|a [|b l]]; reflexivity. Qed.

(** Walks down the cases of a [switch] on an enumerator. *)
Ltac switch_on :=
  repeat (match goal with
          | |- context [?a =? ?b] => destruct (Z.eqb_spec a b)
          end; cbv iota; try (exfalso; intuition congruence)).

(** What [setMagScale] leaves, by the outcome of the write and the value of
    [scale]. *)
Lemma setMagScale_cases scale s w :
  let r := setMagScale scale s w in
  (write_succeeds (next_reply w) ->
     NoDup (map fst mag_scale_table) ->
     forall c, In (scale, c) mag_scale_table ->
       result r = 0 /\ magScale (driver r) = c) /\
  (~ write_succeeds (next_reply w) \/ ~ In scale (map fst mag_scale_table) ->
     result r = 1 /\ magScale (driver r) = Float.of_int 0).
Proof.
  intros r. subst r. unfold setMagScale, bind, modify, ret, result, driver.
  pose proof (writeI2CDeviceByte_result (to_char REG_CTRL6)
    (to_char (Z.land (char_val (to_char (Z.shiftl (char_val (to_char scale)) 5))) 96))
    s w) as [Wok Wko].
  unfold result in Wok, Wko.
  destruct (writeI2CDeviceByte _ _ s w) as [[e s1] w1].
  cbn [fst snd] in Wok, Wko.
  unfold mag_scale_table. cbn [map fst In].
  destruct (Z.eqb_spec e 0) as [->|Ne]; cbn [negb]; cbv iota.
  - split.
    + intros _ ND c Hin.
      inversion ND as [|? ? N1 ND1]; subst. inversion ND1 as [|? ? N2 ND2]; subst.
      inversion ND2 as [|? ? N3 ND3]; subst. cbn [In] in N1, N2, N3.
      destruct Hin as [E|[E|[E|[E|[]]]]]; inversion E; subst; clear E;
        switch_on; split; reflexivity.
    + intros [Hno|Hno]; [exfalso; now apply (Wko Hno)|].
      switch_on. split; reflexivity.
  - split.
    + intros Hok. specialize (Wok Hok). contradiction.
    + intros _. split; reflexivity.
Qed.

(** The same for [setAccelScale], whose write is the second transaction. *)
Lemma setAccelScale_cases uninit scale s w :
  let r := setAccelScale uninit scale s w in
  (write_succeeds (nth 1 (replies w) no_bus) ->
     NoDup (map fst accel_scale_table) ->
     forall c, In (scale, c) accel_scale_table ->
       result r = 0 /\ accelScale (driver r) = c) /\
  (~ write_succeeds (nth 1 (replies w) no_bus)
   \/ ~ In scale (map fst accel_scale_table) ->
     result r = 1 /\ accelScale (driver r) = Float.of_int 0).
Proof.
  intros r. subst r. rewrite nth_1_hd_tl.
  unfold setAccelScale, bind, modify, ret, result, driver.
  pose proof (readI2CDevice_replies (to_char REG_CTRL2) [uninit] 1 s w) as Rp.
  unfold world in Rp.
  destruct (readI2CDevice _ _ _ s w) as [[[e0 buf] s1] w1].
  cbn [fst snd] in Rp |- *.
  match goal with
  | |- context [writeI2CDeviceByte ?a ?v s1 w1] =>
      pose proof (writeI2CDeviceByte_result a v s1 w1) as [Wok Wko];
      unfold result in Wok, Wko;
      destruct (writeI2CDeviceByte a v s1 w1) as [[e s2] w2]
  end.
  unfold next_reply in Wok, Wko. rewrite Rp in Wok, Wko.
  cbn [fst snd] in Wok, Wko.
  unfold accel_scale_table. cbn [map fst In].
  destruct (Z.eqb_spec e 0) as [->|Ne]; cbn [negb]; cbv iota.
  - split.
    + intros _ ND c Hin.
      inversion ND as [|? ? N1 ND1]; subst. inversion ND1 as [|? ? N2 ND2]; subst.
      inversion ND2 as [|? ? N3 ND3]; subst. inversion ND3 as [|? ? N4 ND4]; subst.
      cbn [In] in N1, N2, N3, N4.
      destruct Hin as [E|[E|[E|[E|[E|[]]]]]]; inversion E; subst; clear E;
        switch_on; split; reflexivity.
    + intros [Hno|Hno]; [exfalso; now apply (Wko Hno)|].
      switch_on. split; reflexivity.
  - split.
    + intros Hok. specialize (Wok Hok). contradiction.
    + intros _. split; reflexivity.
Qed.

(** C4, as amended: with pairwise distinct enumerators, a valid scale
    yields its documented constant and result 0 when the write of the
    control register succeeds; when that write fails, or when the scale is
    not a valid enumerator, the scale factor becomes 0 and the result is
    1. For [setMagScale] the write is the first bus transaction, for
    [setAccelScale] the second. *)
Theorem scale_setters_store_constant_when_written uninit scale s w :
  NoDup (map fst accel_scale_table) ->
  NoDup (map fst mag_scale_table) ->
  let ra := setAccelScale uninit scale s w in
  let rm := setMagScale scale s w in
  (write_succeeds (nth 1 (replies w) no_bus) ->
     forall c, In (scale, c) accel_scale_table ->
       result ra = 0 /\ accelScale (driver ra) = c) /\
  (write_succeeds (next_reply w) ->
     forall c, In (scale, c) mag_scale_table ->
       result rm = 0 /\ magScale (driver rm) = c) /\
  (~ write_succeeds (nth 1 (replies w) no_bus)
   \/ ~ In scale (map fst accel_scale_table) ->
     result ra = 1 /\ accelScale (driver ra) = Float.of_int 0) /\
  (~ write_succeeds (next_reply w) \/ ~ In scale (map fst mag_scale_table) ->
     result rm = 1 /\ magScale (driver rm) = Float.of_int 0).
Proof.
  intros NDa NDm ra rm.
  destruct (setAccelScale_cases uninit scale s w) as [A1 A2].
  destruct (setMagScale_cases scale s w) as [M1 M2].
  split; [|split; [|split]].
  - intros Hok c Hin. now apply A1.
  - intros Hok c Hin. now apply M1.
  - exact A2.
  - exact M2.
Qed.

(** ** Temperature *)

(** A raw temperature whose low 12 bits are all 0 converts to 25.0. *)
Lemma getTemperature_zero_count s w :
  cell (dataBuffer s) REG_TEMP_OUT_L = Byte.x00 ->
  Z.land (byte.unsigned (cell (dataBuffer s) REG_TEMP_OUT_H)) 0x0F = 0 ->
  result (getTemperature s w) = Float.of_int 25.
Proof.
  intros L Hh. unfold getTemperature, bind, get, modify, ret, result.
  cbn [fst snd]. rewrite L. unfold char_val.
  destruct (cell (dataBuffer s) REG_TEMP_OUT_H); try discriminate Hh;
    destruct CHAR_IS_SIGNED; vm_compute; reflexivity.
Qed.

(** C3 (the code departs from the claim): the raw value 0x0FFF, the 12-bit
    two's complement encoding of -1 count, does not convert to 24.875. Where
    plain [char] is unsigned the result is 25.0: the exclusive-or with
    0x0FFF leaves a magnitude of 0, not 1. Where it is signed the low byte
    0xFF is sign-extended over the high byte and the result is 537.0. *)
Theorem getTemperature_minus_one_count s w :
  cell (dataBuffer s) REG_TEMP_OUT_H = Byte.x0f ->
  cell (dataBuffer s) REG_TEMP_OUT_L = Byte.xff ->
  result (getTemperature s w)
    = (if CHAR_IS_SIGNED then Float.of_int 537 else Float.of_int 25) /\
  result (getTemperature s w) <> Float.of_double (Double.literal 24875 3).
Proof.
  intros Hh Hl. unfold getTemperature, bind, get, modify, ret, result.
  cbn [fst snd]. rewrite Hh, Hl. unfold char_val.
  destruct CHAR_IS_SIGNED; vm_compute; split; solve [reflexivity | discriminate].
Qed.

(** It is the raw value 0x0FFE, -2 counts, that converts to 24.875 where
    plain [char] is unsigned. *)
Lemma getTemperature_minus_two_counts s w :
  CHAR_IS_SIGNED = false ->
  cell (dataBuffer s) REG_TEMP_OUT_H = Byte.x0f ->
  cell (dataBuffer s) REG_TEMP_OUT_L = Byte.xfe ->
  result (getTemperature s w) = Float.of_double (Double.literal 24875 3).
Proof.
  intros U Hh Hl. unfold getTemperature, bind, get, modify, ret, result.
  cbn [fst snd]. rewrite Hh, Hl. unfold char_val. rewrite U.
  vm_compute. reflexivity.
Qed.

(** ** Pitch and roll *)

(** C8: [calculatePitchAndRoll] stores [degrees(atan(x / sqrt(y^2 + z^2)))]
    as pitch and [degrees(atan(y / sqrt(x^2 + z^2)))] as roll; with an
    [atan] that returns 0 at 0 and the [double] nearest to pi/2 at
    infinity, as Annex F of the C standard requires, the acceleration
    (0, 0, 1) gives pitch 0 and roll 0, and (1, 0, 0) gives pitch 90 and
    roll 0. *)
Theorem calculatePitchAndRoll_tilt s w :
  atan (S754_zero false) = S754_zero false ->
  atan (S754_infinity false) = Double.div M_PI (Double.of_int 2) ->
  (pitch (driver (calculatePitchAndRoll s w))
     = tilt (accelX s) (accelY s) (accelZ s) /\
   roll (driver (calculatePitchAndRoll s w))
     = tilt (accelY s) (accelX s) (accelZ s)) /\
  (let flat := with_accel (S754_zero false) (S754_zero false) (Float.of_int 1) s in
   pitch (driver (calculatePitchAndRoll flat w)) = S754_zero false /\
   roll (driver (calculatePitchAndRoll flat w)) = S754_zero false) /\
  (let nose_up := with_accel (Float.of_int 1) (S754_zero false) (S754_zero false) s in
   pitch (driver (calculatePitchAndRoll nose_up w)) = Float.of_int 90 /\
   roll (driver (calculatePitchAndRoll nose_up w)) = S754_zero false).
Proof.
  intros At0 AtInf.
  assert (E : forall s',
    pitch (driver (calculatePitchAndRoll s' w))
      = tilt (accelX s') (accelY s') (accelZ s') /\
    roll (driver (calculatePitchAndRoll s' w))
      = tilt (accelY s') (accelX s') (accelZ s')).
  { intros s'. split; reflexivity. }
  split; [apply E|]. split.
  - intros flat. destruct (E flat) as [-> ->]. unfold tilt, flat. cbn [with_accel
      accelX accelY accelZ set_accelX set_accelY set_accelZ].
    change (Double.div (Double.of_float (S754_zero false))
              (Double.sqrt (Double.add (squared (S754_zero false))
                                       (squared (Float.of_int 1)))))
      with (S754_zero false).
    rewrite At0. split; reflexivity.
  - intros nose_up. destruct (E nose_up) as [-> ->]. unfold tilt, nose_up.
    cbn [with_accel accelX accelY accelZ set_accelX set_accelY set_accelZ].
    change (Double.div (Double.of_float (Float.of_int 1))
              (Double.sqrt (Double.add (squared (S754_zero false))
                                       (squared (S754_zero false)))))
      with (S754_infinity false).
    change (Double.div (Double.of_float (S754_zero false))
              (Double.sqrt (Double.add (squared (Float.of_int 1))
                                       (squared (S754_zero false)))))
      with (S754_zero false).
    rewrite At0, AtInf. split; vm_compute; reflexivity.
Qed.

(** ** FIFO averaging *)

Lemma lxor_ones16 (v : Z) : 0 <= v < 65536 -> Z.lxor v 0xFFFF = 65535 - v.
Proof.
  intros Hv.
  assert (E : Z.lxor v 0xFFFF = Z.land (Z.lnot v) (Z.ones 16)).
  { apply Z.bits_inj'. intros n Hn.
    rewrite Z.lxor_spec, Z.land_spec, Z.lnot_spec by assumption.
    change 0xFFFF with (Z.ones 16).
    destruct (Z.lt_ge_cases n 16).
    - rewrite Z.ones_spec_low by lia. now rewrite xorb_true_r, andb_true_r.
    - rewrite Z.ones_spec_high by lia.
      rewrite xorb_false_r, andb_false_r.
      rewrite <- (Z.mod_small v (2 ^ 16)) by (change (2 ^ 16) with 65536; lia).
      apply Z.mod_pow2_bits_high. lia. }
  rewrite E, Z.land_ones by lia. unfold Z.lnot.
  change (2 ^ 16) with 65536.
  replace (Z.pred (- v)) with (65535 - v + (-1) * 65536) by lia.
  rewrite Z.mod_add by lia. apply Z.mod_small. lia.
Qed.

Lemma negate16_code (v : Z) :
  0 <= v < 65536 -> to_short (Z.lnot (to_short v) + 1) = negate16 v.
Proof.
  intros Hv. unfold negate16. rewrite lxor_ones16 by assumption.
  unfold to_short, Z.lnot.
  destruct (Z.ltb_spec ((65535 - v + 1) mod 65536) 32768);
    Z.div_mod_to_equations; lia.
Qed.

Lemma negate16_range (v : Z) : -32768 <= negate16 v <= 32767.
Proof.
  unfold negate16.
  destruct (Z.ltb_spec ((Z.lxor v 65535 + 1) mod 65536) 32768);
    Z.div_mod_to_equations; lia.
Qed.

Lemma lor_byte_pair (h l : byte) :
  0 <= Z.lor (Z.shiftl (byte.unsigned h) 8) (byte.unsigned l) < 65536.
Proof.
  pose proof (byte.unsigned_range h). pose proof (byte.unsigned_range l).
  rewrite Z.shiftl_mul_pow2 by lia. change (2 ^ 8) with 256 in *.
  split.
  - apply Z.lor_nonneg. lia.
  - change 65536 with (2 ^ 16).
    destruct (Z.eq_dec (Z.lor (byte.unsigned h * 256) (byte.unsigned l)) 0) as [->|Nz]; [lia|].
    apply Z.log2_lt_pow2.
    + assert (0 <= Z.lor (byte.unsigned h * 256) (byte.unsigned l))
        by (apply Z.lor_nonneg; lia). lia.
    + rewrite Z.log2_lor by lia.
      apply Z.max_lub_lt.
      * destruct (Z.eq_dec (byte.unsigned h) 0) as [->|]; [simpl; lia|].
        apply Z.log2_lt_pow2; lia.
      * destruct (Z.eq_dec (byte.unsigned l) 0) as [->|]; [simpl; lia|].
        apply Z.log2_lt_pow2; lia.
Qed.

Lemma fifo_sample_negate16 fifo (i a : Z) :
  CHAR_IS_SIGNED = false ->
  fifo_sample fifo (6 * i + 2 * a + 1) (6 * i + 2 * a) = negate16 (sample16 fifo i a).
Proof.
  intros U. unfold fifo_sample, sample16, cell.
  rewrite !char_val_unsigned by assumption.
  set (h := nth (Z.to_nat (6 * i + 2 * a + 1)) fifo Byte.x00).
  set (l := nth (Z.to_nat (6 * i + 2 * a)) fifo Byte.x00).
  pose proof (byte.unsigned_range h) as Hh. change (2 ^ 8) with 256 in Hh.
  replace (to_short (byte.unsigned h)) with (byte.unsigned h)
    by (unfold to_short; Z.div_mod_to_equations; lia).
  apply negate16_code, lor_byte_pair.
Qed.

Lemma fifo_sample_axis fifo (i a hi lo : Z) :
  CHAR_IS_SIGNED = false ->
  hi = 6 * i + 2 * a + 1 -> lo = 6 * i + 2 * a ->
  fifo_sample fifo hi lo = negate16 (sample16 fifo i a).
Proof. intros U -> ->. now apply fifo_sample_negate16. Qed.

Lemma to_int_small (z : Z) : -2147483648 <= z <= 2147483647 -> to_int z = z.
Proof. intros. unfold to_int. Z.div_mod_to_equations. lia. Qed.

Lemma averageAccelFIFO_loop_sum fifo (n : nat) :
  CHAR_IS_SIGNED = false ->
  forall (from : nat) (sumX sumY sumZ B : Z),
    Z.abs sumX <= B -> Z.abs sumY <= B -> Z.abs sumZ <= B ->
    B + 32768 * Z.of_nat n <= 2147483647 ->
    averageAccelFIFO_loop n (Z.of_nat from) fifo sumX sumY sumZ
    = (sumX + negated_sum fifo from n 0,
       sumY + negated_sum fifo from n 1,
       sumZ + negated_sum fifo from n 2).
Proof.
  intros U. induction n as [|n IH]; intros from sumX sumY sumZ B HX HY HZ HB.
  - unfold negated_sum. simpl. now rewrite !Z.add_0_r.
  - cbn [averageAccelFIFO_loop].
    rewrite (fifo_sample_axis fifo (Z.of_nat from) 0 (Z.of_nat from * 6 + 1)
               (Z.of_nat from * 6)) by (assumption || lia).
    rewrite (fifo_sample_axis fifo (Z.of_nat from) 1 (Z.of_nat from * 6 + 3)
               (Z.of_nat from * 6 + 2)) by (assumption || lia).
    rewrite (fifo_sample_axis fifo (Z.of_nat from) 2 (Z.of_nat from * 6 + 5)
               (Z.of_nat from * 6 + 4)) by (assumption || lia).
    pose proof (negate16_range (sample16 fifo (Z.of_nat from) 0)).
    pose proof (negate16_range (sample16 fifo (Z.of_nat from) 1)).
    pose proof (negate16_range (sample16 fifo (Z.of_nat from) 2)).
    rewrite !to_int_small by lia.
    replace (Z.of_nat from + 1) with (Z.of_nat (S from)) by lia.
    rewrite (IH (S from) _ _ _ (B + 32768)) by lia.
    unfold negated_sum. cbn [seq map fold_right].
    f_equal; [f_equal|]; lia.
Qed.

Lemma Float_mul_comm (x y : float) : Float.mul x y = Float.mul y x.
Proof.
  unfold Float.mul.
  destruct x as [sx|sx| |sx mx ex], y as [sy|sy| |sy my ey]; cbn [SFmul];
    try reflexivity; try (now rewrite xorb_comm).
  now rewrite xorb_comm, Pos.mul_comm, Z.add_comm.
Qed.

(** C2: where plain [char] is unsigned, for [slots] entries that the FIFO
    buffer holds, [averageAccelFIFO] sets each of [accelX], [accelY],
    [accelZ] to [accelScale] times the truncating quotient by [slots] of
    the sum, over the first [slots] entries, of the 16-bit negation
    (complement plus one) of [(high << 8) | low] for that axis. *)
Theorem averageAccelFIFO_average slots s w :
  CHAR_IS_SIGNED = false ->
  1 <= slots <= 65535 ->
  6 * slots <= Z.of_nat (length (accelFIFO s)) ->
  let r := driver (averageAccelFIFO slots s w) in
  accelX r = Float.mul (accelScale s)
               (Float.of_int (fifo_average (accelFIFO s) slots 0)) /\
  accelY r = Float.mul (accelScale s)
               (Float.of_int (fifo_average (accelFIFO s) slots 1)) /\
  accelZ r = Float.mul (accelScale s)
               (Float.of_int (fifo_average (accelFIFO s) slots 2)).
Proof.
  intros U Hs _ r. subst r. unfold averageAccelFIFO.
  destruct (Z.leb_spec slots 0); [lia|].
  unfold bind, get, modify, ret, convertAcceleration_int, driver.
  pose proof (averageAccelFIFO_loop_sum (accelFIFO s) (Z.to_nat slots) U
                0%nat 0 0 0 0) as L.
  change (Z.of_nat 0) with 0 in L. rewrite L by lia. clear L.
  cbn [fst snd accelX accelY accelZ accelScale set_accelX set_accelY set_accelZ].
  rewrite !Z.add_0_l. unfold fifo_average.
  repeat split; apply Float_mul_comm.
Qed.

(** ** The poll *)

Lemma char_val_0x49 (b : byte) : char_val b = 0x49 -> b = Byte.x49.
Proof.
  unfold char_val.
  destruct CHAR_IS_SIGNED, b; intros E; try reflexivity; discriminate E.
Qed.

Lemma same_mag_temp_tilt_refl s : same_mag_temp_tilt s s.
Proof. repeat split. Qed.

Lemma same_mag_temp_tilt_trans s1 s2 s3 :
  same_mag_temp_tilt s1 s2 -> same_mag_temp_tilt s2 s3 ->
  same_mag_temp_tilt s1 s3.
Proof.
  unfold same_mag_temp_tilt. intros (A1 & A2 & A3 & A4 & A5 & A6)
    (B1 & B2 & B3 & B4 & B5 & B6).
  repeat split; congruence.
Qed.

(** Replaces the driver returned by a bus transaction by the one passed. *)
Ltac bus_step :=
  match goal with
  | |- context [readI2CDevice ?a ?d ?n ?s ?w] =>
      let D := fresh "D" in
      let e := fresh "e" in
      let s' := fresh "s" in
      let w' := fresh "w" in
      pose proof (readI2CDevice_driver a d n s w) as D; unfold driver in D;
      destruct (readI2CDevice a d n s w) as [[e s'] w'];
      cbn [fst snd] in D; subst s'
  end.

Lemma readI2CDevice_dataBuffer_keeps reg size s w :
  same_mag_temp_tilt s (driver (readI2CDevice_dataBuffer reg size s w)).
Proof.
  unfold readI2CDevice_dataBuffer, bind, get, modify, ret, driver.
  bus_step. repeat split.
Qed.

Lemma readAccelFIFO_keeps s w :
  same_mag_temp_tilt s (driver (readAccelFIFO s w)).
Proof.
  unfold readAccelFIFO, bind, get, modify, ret, driver.
  bus_step. bus_step. repeat split.
Qed.

Lemma averageAccelFIFO_keeps slots s w :
  same_mag_temp_tilt s (driver (averageAccelFIFO slots s w)).
Proof.
  unfold averageAccelFIFO.
  destruct (slots <=? 0); [apply same_mag_temp_tilt_refl|].
  unfold bind, get, modify, ret, convertAcceleration_int, driver.
  destruct (averageAccelFIFO_loop _ _ _ _ _ _) as [[sx sy] sz].
  repeat split.
Qed.

Lemma readFullSensorState_fetch_keeps s w :
  same_mag_temp_tilt s (driver (readFullSensorState_fetch s w)).
Proof.
  unfold readFullSensorState_fetch. unfold bind at 1. unfold get at 1.
  destruct (accelFIFOMode s =? ACCEL_FIFO_STREAM).
  - unfold bind.
    pose proof (readI2CDevice_dataBuffer_keeps REG_TEMP_OUT_L
                  (REG_OUT_Z_H_M - REG_TEMP_OUT_L + 1) s w) as K1.
    destruct (readI2CDevice_dataBuffer REG_TEMP_OUT_L _ s w) as [[e1 s1] w1].
    pose proof (readI2CDevice_dataBuffer_keeps REG_WHO_AM_I 1 s1 w1) as K2.
    destruct (readI2CDevice_dataBuffer REG_WHO_AM_I _ s1 w1) as [[e2 s2] w2].
    pose proof (readI2CDevice_dataBuffer_keeps REG_INT_CTRL_M
                  (REG_STATUS_A - REG_INT_CTRL_M + 1) s2 w2) as K3.
    destruct (readI2CDevice_dataBuffer REG_INT_CTRL_M _ s2 w2) as [[e3 s3] w3].
    pose proof (readI2CDevice_dataBuffer_keeps REG_FIFO_CTRL
                  (LMS303_I2C_BUFFER - REG_FIFO_CTRL) s3 w3) as K4.
    destruct (readI2CDevice_dataBuffer REG_FIFO_CTRL _ s3 w3) as [[e4 s4] w4].
    pose proof (readAccelFIFO_keeps s4 w4) as K5.
    destruct (readAccelFIFO s4 w4) as [[n s5] w5].
    pose proof (averageAccelFIFO_keeps n s5 w5) as K6.
    destruct (averageAccelFIFO n s5 w5) as [[e6 s6] w6].
    unfold driver in *. cbn [fst snd ret] in *.
    repeat (eapply same_mag_temp_tilt_trans; [eassumption|]).
    apply same_mag_temp_tilt_refl.
  - unfold bind.
    pose proof (readI2CDevice_dataBuffer_keeps REG_WHO_AM_I
                  (LMS303_I2C_BUFFER - REG_WHO_AM_I) s w) as K1.
    destruct (readI2CDevice_dataBuffer REG_WHO_AM_I _ s w) as [[e1 s1] w1].
    unfold driver in *. cbn [fst snd] in K1.
    unfold convertAcceleration, bind, get, modify, ret. cbn [fst snd].
    eapply same_mag_temp_tilt_trans; [exact K1|]. repeat split.
Qed.

(** C1, as amended: a poll that finds a byte other than 0x49 in the
    identity register returns 1 and leaves [magX], [magY], [magZ],
    [celsius], [pitch] and [roll] as they were. (The acceleration fields
    have been recomputed by then.) *)
Theorem readFullSensorState_sync_error s w :
  identity_read s w <> Byte.x49 ->
  let r := readFullSensorState s w in
  result r = 1 /\
  magX (driver r) = magX s /\
  magY (driver r) = magY s /\
  magZ (driver r) = magZ s /\
  celsius (driver r) = celsius s /\
  pitch (driver r) = pitch s /\
  roll (driver r) = roll s.
Proof.
  intros Hid. unfold identity_read in Hid. cbv zeta.
  pose proof (readFullSensorState_fetch_keeps s w) as K.
  assert (E : readFullSensorState s w
              = (1, driver (readFullSensorState_fetch s w),
                    world (readFullSensorState_fetch s w))).
  { unfold readFullSensorState, bind, get.
    destruct (readFullSensorState_fetch s w) as [[u s1] w1].
    unfold driver, world in *. cbn [fst snd] in *.
    destruct (Z.eqb_spec (char_val (cell (dataBuffer s1) REG_WHO_AM_I)) 0x49)
      as [E|_]; [|reflexivity].
    apply char_val_0x49 in E. contradiction. }
  rewrite E. split; [reflexivity|exact K].
Qed.
End Properties.

(** ** The properties at concrete inputs *)

Lemma i2c_handle_left_open_witness :
  (result (writeI2CDeviceByte (to_char 0x24) (to_char 0x80)
             (fresh 0) (idle [select_fails])) = 2 /\
   handles (world (writeI2CDeviceByte (to_char 0x24) (to_char 0x80)
                     (fresh 0) (idle [select_fails]))) = [3]) /\
  (result (writeI2CDeviceByte (to_char 0x24) (to_char 0x80)
             (fresh 0) (idle [transfer_fails])) = 3 /\
   handles (world (writeI2CDeviceByte (to_char 0x24) (to_char 0x80)
                     (fresh 0) (idle [transfer_fails]))) = [3]) /\
  (fst (result (readI2CDevice (T:=arm_eabi) (to_char 0x24) [Byte.x00] 1
                  (fresh 0) (idle [select_fails]))) = 2 /\
   handles (world (readI2CDevice (T:=arm_eabi) (to_char 0x24) [Byte.x00] 1
                     (fresh 0) (idle [select_fails]))) = [3]).
Proof.
  split; [|split].
  - apply (i2c_handle_left_open (T:=arm_eabi) (to_char 0x24) (to_char 0x80)
             [Byte.x00] 1 (fresh 0) (idle [select_fails])); simpl; lia.
  - apply (i2c_handle_left_open (T:=arm_eabi) (to_char 0x24) (to_char 0x80)
             [Byte.x00] 1 (fresh 0) (idle [transfer_fails])); simpl; lia.
  - apply (i2c_handle_left_open (T:=arm_eabi) (to_char 0x24) (to_char 0x80)
             [Byte.x00] 1 (fresh 0) (idle [select_fails])); simpl; lia.
Defined.

Lemma readI2CDevice_read_failure_returns_0_witness :
  fst (result (readI2CDevice (T:=arm_eabi) (to_char 0x20) [Byte.x00] 1
                 (fresh 0) (idle [transfer_fails]))) = 0.
Proof.
  apply (readI2CDevice_read_failure_returns_0 (T:=arm_eabi));
    simpl; lia.
Defined.





Lemma scale_setters_store_constant_when_written_witness :
  (result (setAccelScale (H:=LSM303D) (T:=arm_eabi) Byte.x00 3 (fresh 0)
             (idle [read_ok [Byte.x00]; write_ok])) = 0 /\
   accelScale (driver (setAccelScale (H:=LSM303D) (T:=arm_eabi) Byte.x00 3
                         (fresh 0) (idle [read_ok [Byte.x00]; write_ok])))
   = Float.of_double (Double.literal 244 6)) /\
  (result (setAccelScale (H:=LSM303D) (T:=arm_eabi) Byte.x00 7 (fresh 0)
             (idle [read_ok [Byte.x00]; write_ok])) = 1 /\
   accelScale (driver (setAccelScale (H:=LSM303D) (T:=arm_eabi) Byte.x00 7
                         (fresh 0) (idle [read_ok [Byte.x00]; write_ok])))
   = Float.of_int 0).
Proof.
  split.
  - apply (scale_setters_store_constant_when_written (H:=LSM303D) (T:=arm_eabi)
             Byte.x00 3 (fresh 0) (idle [read_ok [Byte.x00]; write_ok])).
    + repeat constructor; simpl; intuition discriminate.
    + repeat constructor; simpl; intuition discriminate.
    + unfold write_succeeds; simpl; lia.
    + simpl; tauto.
  - apply (scale_setters_store_constant_when_written (H:=LSM303D) (T:=arm_eabi)
             Byte.x00 7 (fresh 0) (idle [read_ok [Byte.x00]; write_ok])).
    + repeat constructor; simpl; intuition discriminate.
    + repeat constructor; simpl; intuition discriminate.
    + right. simpl. intuition discriminate.
Defined.

Lemma scale_setters_as_specified_fails :
  ~ scale_setters_as_specified (H:=LSM303D) (T:=arm_eabi).
Proof.
  intros C.
  destruct (C Byte.x00 3 (fresh 0) (idle [read_ok [Byte.x00]; transfer_fails]))
    as [A _].
  destruct (A (Float.of_double (Double.literal 244 6))) as [R _].
  - simpl. tauto.
  - vm_compute in R. discriminate R.
Qed.


Lemma getTemperature_minus_one_count_witness :
  result (getTemperature (H:=LSM303D) (T:=arm_eabi)
            (set_dataBuffer (zeros 5 ++ [Byte.xff; Byte.x0f] ++ zeros 57) (fresh 0))
            (idle []))
  = Float.of_int 25.
Proof.
  apply (getTemperature_minus_one_count (H:=LSM303D) (T:=arm_eabi)
           (set_dataBuffer (zeros 5 ++ [Byte.xff; Byte.x0f] ++ zeros 57) (fresh 0))
           (idle [])); reflexivity.
Defined.

Lemma calculatePitchAndRoll_tilt_witness :
  pitch (driver (calculatePitchAndRoll (T:=arm_eabi)
           (with_accel (Float.of_int 1) (S754_zero false) (S754_zero false) (fresh 0))
           (idle []))) = Float.of_int 90 /\
  roll (driver (calculatePitchAndRoll (T:=arm_eabi)
           (with_accel (Float.of_int 1) (S754_zero false) (S754_zero false) (fresh 0))
           (idle []))) = S754_zero false.
Proof.
  apply (calculatePitchAndRoll_tilt (T:=arm_eabi) (fresh 0) (idle []));
    reflexivity.
Defined.


Lemma averageAccelFIFO_average_witness :
  accelX (driver (averageAccelFIFO (T:=arm_eabi) 4 (four_samples (fresh 1)) (idle [])))
  = Float.mul (Float.of_double (Double.literal 244 6)) (Float.of_int (-1)).
Proof.
  destruct (averageAccelFIFO_average (T:=arm_eabi) 4 (four_samples (fresh 1))
              (idle [])) as [X _].
  - reflexivity.
  - lia.
  - simpl. lia.
  - rewrite X. reflexivity.
Defined.



Lemma sync_error_as_specified_fails :
  ~ sync_error_as_specified (H:=LSM303D) (T:=arm_eabi).
Proof.
  intros C.
  destruct (C (fresh 1) out_of_step) as (_ & X & _).
  - vm_compute. discriminate.
  - vm_compute in X. discriminate X.
Qed.

Lemma readFullSensorState_sync_error_witness :
  result (readFullSensorState (H:=LSM303D) (T:=arm_eabi) (fresh 1) out_of_step) = 1.
Proof.
  apply (readFullSensorState_sync_error (H:=LSM303D) (T:=arm_eabi)
           (fresh 1) out_of_step).
  vm_compute. discriminate.
Defined.

(** A poll of a device in step: 26 degrees, an acceleration of 4096 counts
    along Z (the FIFO sample 0xF000 is -4096, negated by the averaging), no
    tilt, and every descriptor closed. *)
Example poll_in_step :
  let r := readFullSensorState (H:=LSM303D) (T:=arm_eabi) (fresh 1) in_step in
  result r = 0 /\
  celsius (driver r) = Float.of_int 26 /\
  accelX (driver r) = S754_zero false /\
  accelZ (driver r) = Float.mul (Float.of_int 4096) (accelScale (fresh 1)) /\
  pitch (driver r) = S754_zero false /\
  roll (driver r) = S754_zero false /\
  handles (world r) = [].
Proof. vm_compute. repeat split. Qed.

(** Averaging over no entry is refused and leaves the driver as it is. *)
Example averageAccelFIFO_no_slot :
  averageAccelFIFO 0 (four_samples (fresh 1)) (idle [])
  = (1, four_samples (fresh 1), idle []).
Proof. reflexivity. Qed.

(** * Further properties: configuration, polling and decoding *)

(** Reduces the projections of updated driver objects. *)
Ltac fields :=
  cbn [fst snd I2CBus I2CAddress dataBuffer accelFIFO accelX accelY accelZ
       magX magY magZ celsius pitch roll accelScale magScale accelFIFOMode
       set_dataBuffer set_accelFIFO set_accelX set_accelY set_accelZ
       set_magX set_magY set_magZ set_celsius set_pitch set_roll
       set_accelScale set_magScale set_accelFIFOMode] in *.

(** ** Counting bus transactions and collecting register writes *)

Section Counting.
Context {H : Header} {T : Target}.

Lemma transactions_ret {A} (a : A) : transactions (ret a) 0.
Proof. intros s w. reflexivity. Qed.

Lemma transactions_get : transactions get 0.
Proof. intros s w. reflexivity. Qed.

Lemma transactions_modify f : transactions (modify f) 0.
Proof. intros s w. reflexivity. Qed.

Lemma transactions_bind {A B} (m : Drv A) (f : A -> Drv B) (k1 k2 k : nat) :
  transactions m k1 -> (forall a, transactions (f a) k2) -> k = (k1 + k2)%nat ->
  transactions (bind m f) k.
Proof.
  intros Hm Hf -> s w. unfold bind. specialize (Hm s w). unfold world in Hm.
  destruct (m s w) as [[a s1] w1]. cbn [snd] in Hm.
  rewrite (Hf a s1 w1), Hm, skipn_skipn. f_equal. lia.
Qed.

Lemma transactions_if {A} (b : bool) (m1 m2 : Drv A) k :
  transactions m1 k -> transactions m2 k -> transactions (if b then m1 else m2) k.
Proof. destruct b; auto. Qed.

Lemma transactions_readI2CDevice address data size :
  transactions (readI2CDevice address data size) 1.
Proof. intros s w. apply readI2CDevice_replies. Qed.

Lemma transactions_writeI2CDeviceByte address value :
  transactions (writeI2CDeviceByte address value) 1.
Proof.
  intros s w. unfold writeI2CDeviceByte, world.
  destruct (open_ret (next_reply w) <? 0); [reflexivity|].
  destruct (ioctl_ret (next_reply w) <? 0); [reflexivity|].
  destruct (write_ret (next_reply w) =? 2); reflexivity.
Qed.

Lemma transactions_ret_bind {A B} (a : A) (f : A -> Drv B) k :
  transactions (f a) k -> transactions (bind (ret a) f) k.
Proof. intros F s w. apply F. Qed.

Lemma transactions_assoc {A B D} (m : Drv A) (g : A -> Drv B) (f : B -> Drv D) k :
  transactions (bind m (fun x => bind (g x) f)) k ->
  transactions (bind (bind m g) f) k.
Proof.
  intros F s w. specialize (F s w). unfold bind in *.
  destruct (m s w) as [[a s1] w1]. exact F.
Qed.

Lemma register_writes_app tr1 tr2 :
  register_writes (tr1 ++ tr2) = register_writes tr1 ++ register_writes tr2.
Proof. apply flat_map_app. Qed.

Lemma all_selected_next k w : all_selected (S k) w -> selected (next_reply w).
Proof.
  intros A. specialize (A 0%nat ltac:(lia)). unfold next_reply.
  destruct (replies w); exact A.
Qed.

Lemma all_selected_split k1 k2 w w1 :
  all_selected (k1 + k2) w -> replies w1 = skipn k1 (replies w) ->
  all_selected k1 w /\ all_selected k2 w1.
Proof.
  intros A E. split; intros i Hi.
  - apply A. lia.
  - rewrite E, nth_skipn. apply A. lia.
Qed.

Lemma writes_selected_ret {A} (a : A) : writes_selected (ret a) 0 [].
Proof. intros s w _. unfold ret, world. cbn [snd]. now rewrite app_nil_r. Qed.

Lemma writes_selected_get : writes_selected get 0 [].
Proof. intros s w _. unfold get, world. cbn [snd]. now rewrite app_nil_r. Qed.

Lemma writes_selected_modify f : writes_selected (modify f) 0 [].
Proof. intros s w _. unfold modify, world. cbn [snd]. now rewrite app_nil_r. Qed.

Lemma writes_selected_bind {A B} (m : Drv A) (f : A -> Drv B) k1 k2 k l1 l2 l :
  writes_selected m k1 l1 -> transactions m k1 ->
  (forall a, writes_selected (f a) k2 l2) ->
  k = (k1 + k2)%nat -> l = l1 ++ l2 ->
  writes_selected (bind m f) k l.
Proof.
  intros Wm Tm Wf -> -> s w Sel. unfold bind.
  specialize (Wm s w). specialize (Tm s w). unfold world in Wm, Tm.
  destruct (m s w) as [[a s1] w1]. cbn [snd] in Wm, Tm.
  destruct (all_selected_split k1 k2 w w1 Sel Tm) as [A1 A2].
  rewrite (Wf a s1 w1 A2), (Wm A1), app_assoc. reflexivity.
Qed.

Lemma writes_selected_readI2CDevice address data size :
  writes_selected (readI2CDevice address data size) 1 [].
Proof.
  intros s w A. rewrite app_nil_r. unfold readI2CDevice, world.
  destruct (open_ret (next_reply w) <? 0);
    [cbn [snd]; unfold emit; cbn [trace]; rewrite register_writes_app; cbn;
     now rewrite app_nil_r|].
  destruct (ioctl_ret (next_reply w) <? 0);
    [cbn [snd]; unfold emit, acquire; cbn [trace];
     rewrite !register_writes_app; cbn; now rewrite !app_nil_r|].
  destruct (sys_read_into _ _ _) as [n d]. cbn [snd].
  unfold emit, acquire, release, pop_reply. cbn [trace].
  rewrite !register_writes_app. cbn. now rewrite !app_nil_r.
Qed.

Lemma writes_selected_writeI2CDeviceByte address value :
  writes_selected (writeI2CDeviceByte address value) 1 [(address, value)].
Proof.
  intros s w A. apply all_selected_next in A. destruct A as [O I].
  unfold writeI2CDeviceByte, world.
  destruct (Z.ltb_spec (open_ret (next_reply w)) 0); [lia|].
  destruct (Z.ltb_spec (ioctl_ret (next_reply w)) 0); [lia|].
  destruct (write_ret (next_reply w) =? 2); cbn [snd negb];
    unfold emit, acquire, release, pop_reply; cbn [trace];
    rewrite !register_writes_app; cbn; now rewrite ?app_nil_r.
Qed.

Lemma writes_selected_if {A} (b : bool) (m1 m2 : Drv A) k l :
  writes_selected m1 k l -> writes_selected m2 k l ->
  writes_selected (if b then m1 else m2) k l.
Proof. destruct b; auto. Qed.

Lemma writes_selected_ret_bind {A B} (a : A) (f : A -> Drv B) k l :
  writes_selected (f a) k l -> writes_selected (bind (ret a) f) k l.
Proof. intros F s w. apply F. Qed.

Lemma writes_selected_assoc {A B D} (m : Drv A) (g : A -> Drv B) (f : B -> Drv D) k l :
  writes_selected (bind m (fun x => bind (g x) f)) k l ->
  writes_selected (bind (bind m g) f) k l.
Proof.
  intros F s w. specialize (F s w). unfold bind in *.
  destruct (m s w) as [[a s1] w1]. exact F.
Qed.
End Counting.

(** Counts the transactions of a method built from the primitives. *)
Ltac count_transactions :=
  repeat match goal with
  | |- transactions (bind (ret _) _) _ => apply transactions_ret_bind; cbv beta zeta
  | |- transactions (bind (bind _ _) _) _ => apply transactions_assoc; cbv beta zeta
  | |- transactions (bind _ _) _ =>
      eapply transactions_bind; [ | intros; cbv beta zeta | ]
  | |- transactions (if _ then _ else _) _ => apply transactions_if
  | |- transactions _ _ =>
      first [ apply transactions_ret
            | apply transactions_get
            | apply transactions_modify
            | apply transactions_readI2CDevice
            | apply transactions_writeI2CDeviceByte ]
  | |- @eq nat _ _ => reflexivity
  end.

(** Collects the register writes of a method built from the primitives. *)
Ltac collect_writes :=
  repeat match goal with
  | |- writes_selected (bind (ret _) _) _ _ =>
      apply writes_selected_ret_bind; cbv beta zeta
  | |- writes_selected (bind (bind _ _) _) _ _ =>
      apply writes_selected_assoc; cbv beta zeta
  | |- writes_selected (bind _ _) _ _ =>
      eapply writes_selected_bind; [ | | intros; cbv beta zeta | | ]
  | |- writes_selected (if _ then _ else _) _ _ => apply writes_selected_if
  | |- writes_selected _ _ _ =>
      first [ apply writes_selected_ret
            | apply writes_selected_get
            | apply writes_selected_modify
            | apply writes_selected_readI2CDevice
            | apply writes_selected_writeI2CDeviceByte ]
  | |- transactions _ _ => solve [count_transactions]
  | |- @eq nat _ _ => reflexivity
  | |- @eq (list _) _ _ => reflexivity
  end.

Section Further.
Context {H : Header} {C : ControlHeader} {T : Target}.

(** ** Transactions of a poll *)

Lemma transactions_readI2CDevice_dataBuffer reg size :
  transactions (readI2CDevice_dataBuffer reg size) 1.
Proof. unfold readI2CDevice_dataBuffer. count_transactions. Qed.

Lemma transactions_readAccelFIFO : transactions readAccelFIFO 2.
Proof. unfold readAccelFIFO. count_transactions. Qed.

Lemma transactions_averageAccelFIFO slots : transactions (averageAccelFIFO slots) 0.
Proof.
  unfold averageAccelFIFO. apply transactions_if; [apply transactions_ret|].
  intros s w. unfold bind at 1. unfold get at 1.
  destruct (averageAccelFIFO_loop _ _ _ _ _ _) as [[sx sy] sz].
  revert s w. change (transactions
    (x <- convertAcceleration_int (Z.quot sx slots) ;;
     modify (set_accelX x) ;;;
     y <- convertAcceleration_int (Z.quot sy slots) ;;
     modify (set_accelY y) ;;;
     z <- convertAcceleration_int (Z.quot sz slots) ;;
     modify (set_accelZ z) ;;; ret 0) 0).
  unfold convertAcceleration_int. count_transactions.
Qed.

Lemma transactions_getTemperature : transactions getTemperature 0.
Proof.
  intros s w. unfold getTemperature, bind, get, modify, ret, world.
  destruct (negb _); reflexivity.
Qed.

Lemma transactions_convertMagnetism msb lsb : transactions (convertMagnetism msb lsb) 0.
Proof. unfold convertMagnetism. count_transactions. Qed.

Lemma transactions_convertAcceleration msb lsb :
  transactions (convertAcceleration msb lsb) 0.
Proof. unfold convertAcceleration. count_transactions. Qed.

Lemma transactions_calculatePitchAndRoll : transactions calculatePitchAndRoll 0.
Proof. unfold calculatePitchAndRoll. count_transactions. Qed.

(** X1: A poll performs six bus transactions in stream mode and one otherwise,
    whatever their outcome: a failed transfer is never tried again. *)
Theorem readFullSensorState_transactions s w :
  replies (world (readFullSensorState s w))
  = skipn (if accelFIFOMode s =? ACCEL_FIFO_STREAM then 6 else 1) (replies w).
Proof.
  assert (F : replies (world (readFullSensorState_fetch s w))
              = skipn (if accelFIFOMode s =? ACCEL_FIFO_STREAM then 6 else 1)
                      (replies w)).
  { unfold readFullSensorState_fetch. unfold bind at 1. unfold get at 1.
    destruct (accelFIFOMode s =? ACCEL_FIFO_STREAM).
    - revert s w.
      change (transactions
        (readI2CDevice_dataBuffer REG_TEMP_OUT_L
           ((REG_OUT_Z_H_M - REG_TEMP_OUT_L) + 1) ;;;
         readI2CDevice_dataBuffer REG_WHO_AM_I 1 ;;;
         readI2CDevice_dataBuffer REG_INT_CTRL_M
           ((REG_STATUS_A - REG_INT_CTRL_M) + 1) ;;;
         readI2CDevice_dataBuffer REG_FIFO_CTRL
           (LMS303_I2C_BUFFER - REG_FIFO_CTRL) ;;;
         slotsRead <- readAccelFIFO ;;
         averageAccelFIFO slotsRead ;;;
         ret tt) 6).
      repeat first
        [ apply transactions_readI2CDevice_dataBuffer
        | apply transactions_readAccelFIFO
        | apply transactions_averageAccelFIFO
        | apply transactions_ret
        | eapply transactions_bind; [ | intros | ]
        | reflexivity ].
    - revert s w.
      change (transactions
        (readI2CDevice_dataBuffer REG_WHO_AM_I
           (LMS303_I2C_BUFFER - REG_WHO_AM_I) ;;;
         x <- convertAcceleration REG_OUT_X_H_A REG_OUT_X_L_A ;;
         modify (set_accelX x) ;;;
         y <- convertAcceleration REG_OUT_Y_H_A REG_OUT_Y_L_A ;;
         modify (set_accelY y) ;;;
         z <- convertAcceleration REG_OUT_Z_H_A REG_OUT_Z_L_A ;;
         modify (set_accelZ z)) 1).
      repeat first
        [ apply transactions_readI2CDevice_dataBuffer
        | apply transactions_convertAcceleration
        | apply transactions_modify
        | eapply transactions_bind; [ | intros | ]
        | reflexivity ]. }
  rewrite <- F. clear F. unfold readFullSensorState. unfold bind at 1.
  destruct (readFullSensorState_fetch s w) as [[u s1] w1].
  unfold bind at 1. unfold get at 1. unfold world at 2. cbn [snd].
  destruct (negb _); [reflexivity|].
  revert s1 w1.
  change (transactions
    (getTemperature ;;;
     x <- convertMagnetism REG_OUT_X_H_M REG_OUT_X_L_M ;;
     modify (set_magX x) ;;;
     y <- convertMagnetism REG_OUT_Y_H_M REG_OUT_Y_L_M ;;
     modify (set_magY y) ;;;
     z <- convertMagnetism REG_OUT_Z_H_M REG_OUT_Z_L_M ;;
     modify (set_magZ z) ;;;
     calculatePitchAndRoll ;;;
     ret 0) 0).
  repeat first
    [ apply transactions_getTemperature
    | apply transactions_convertMagnetism
    | apply transactions_calculatePitchAndRoll
    | apply transactions_modify
    | apply transactions_ret
    | eapply transactions_bind; [ | intros | ]
    | reflexivity ].
Qed.

(** ** What a poll reads into the register image *)

Lemma blit_length (src dst : list byte) : length (blit src dst) = length dst.
Proof.
  revert dst. induction src as [|b src IH]; intros [|d dst]; simpl; auto.
Qed.

Lemma blit_nil_r (src : list byte) : blit src [] = [].
Proof. destruct src; reflexivity. Qed.

Lemma blit_nth_outside (src dst : list byte) (j : nat) (d : byte) :
  (length src <= j)%nat -> nth j (blit src dst) d = nth j dst d.
Proof.
  revert dst j. induction src as [|b src IH]; intros [|x dst] j Hj; simpl in *;
    try reflexivity.
  destruct j as [|j]; [lia|]. apply IH. lia.
Qed.

Lemma nth_window_outside (buf got : list byte) (off j : nat) (d : byte) :
  (j < off \/ off + length got <= j)%nat ->
  nth j (firstn off buf ++ blit got (skipn off buf)) d = nth j buf d.
Proof.
  intros Hj. rewrite <- (firstn_skipn off buf) at 3.
  destruct (Nat.lt_ge_cases j (length (firstn off buf))) as [Lt|Ge].
  - now rewrite !app_nth1 by assumption.
  - rewrite !app_nth2 by assumption.
    rewrite length_firstn in *.
    destruct (Nat.le_gt_cases off (length buf)).
    + apply blit_nth_outside. lia.
    + rewrite skipn_all2 by lia. now rewrite blit_nil_r.
Qed.

Lemma sys_read_into_stored (r : option (list byte)) (data : list byte) (size : Z) :
  exists got, snd (sys_read_into r data size) = blit got data /\
              (length got <= Z.to_nat size)%nat.
Proof.
  destruct r as [bs|]; simpl.
  - exists (firstn (Z.to_nat size) bs). split; [reflexivity|].
    rewrite length_firstn. lia.
  - exists []. split; [reflexivity|simpl; lia].
Qed.

Lemma readI2CDevice_stored address data size s w :
  exists got, snd (result (readI2CDevice address data size s w)) = blit got data /\
              (length got <= Z.to_nat size)%nat.
Proof.
  unfold readI2CDevice, result.
  destruct (open_ret (next_reply w) <? 0);
    [exists []; split; [reflexivity|simpl; lia]|].
  destruct (ioctl_ret (next_reply w) <? 0);
    [exists []; split; [reflexivity|simpl; lia]|].
  destruct (sys_read_into_stored (read_bytes (next_reply w)) data size)
    as (got & E & L).
  destruct (sys_read_into _ _ _) as [n data']. cbn [fst snd] in *.
  exists got. split; assumption.
Qed.

(** One read into the register image changes no cell outside its window
    [reg, reg + size). *)
Lemma readI2CDevice_dataBuffer_outside reg size s w i :
  0 <= reg -> 0 <= i -> ~ (reg <= i < reg + size) ->
  cell (dataBuffer (driver (readI2CDevice_dataBuffer reg size s w))) i
  = cell (dataBuffer s) i.
Proof.
  intros Hreg Hi Hout.
  unfold readI2CDevice_dataBuffer, bind, get, modify, ret, driver.
  pose proof (readI2CDevice_stored (to_char reg)
                (skipn (Z.to_nat reg) (dataBuffer s)) size s w) as (got & E & L).
  pose proof (readI2CDevice_driver (to_char reg)
                (skipn (Z.to_nat reg) (dataBuffer s)) size s w) as D.
  unfold result, driver in E, D.
  destruct (readI2CDevice _ _ _ s w) as [[[e data] s1] w1].
  cbn [fst snd] in *. subst s1 data. unfold cell. cbn [dataBuffer set_dataBuffer].
  apply nth_window_outside. lia.
Qed.

Lemma readAccelFIFO_dataBuffer s w :
  dataBuffer (driver (readAccelFIFO s w)) = dataBuffer s.
Proof.
  unfold readAccelFIFO, bind, get, modify, ret, driver.
  pose proof (readI2CDevice_driver (to_char REG_FIFO_SRC) [Byte.x00] 1 s w) as D.
  unfold driver in D. destruct (readI2CDevice _ _ _ s w) as [[e s1] w1].
  cbn [fst snd] in D. subst s1.
  pose proof (readI2CDevice_driver (to_char REG_OUT_X_L_A) (accelFIFO s)
                ACCEL_FIFO_SIZE s w1) as D.
  unfold driver in D. destruct (readI2CDevice _ _ _ s w1) as [[f s2] w2].
  cbn [fst snd] in D. subst s2. reflexivity.
Qed.

Lemma averageAccelFIFO_dataBuffer slots s w :
  dataBuffer (driver (averageAccelFIFO slots s w)) = dataBuffer s.
Proof.
  unfold averageAccelFIFO. destruct (slots <=? 0); [reflexivity|].
  unfold bind, get, modify, ret, convertAcceleration_int, driver.
  destruct (averageAccelFIFO_loop _ _ _ _ _ _) as [[sx sy] sz]. reflexivity.
Qed.

Lemma readFullSensorState_after_fetch s w :
  dataBuffer (driver (readFullSensorState s w))
  = dataBuffer (driver (readFullSensorState_fetch s w)).
Proof.
  unfold readFullSensorState. unfold bind at 1.
  destruct (readFullSensorState_fetch s w) as [[u s1] w1].
  unfold bind at 1. unfold get at 1. unfold driver at 2. cbn [fst snd].
  destruct (negb _); [reflexivity|].
  unfold getTemperature, convertMagnetism, calculatePitchAndRoll,
    bind, get, modify, ret, driver. cbn [fst snd].
  destruct (negb _); reflexivity.
Qed.

Lemma readFullSensorState_fetch_outside s w i :
  0 <= i ->
  outside_windows (poll_windows (accelFIFOMode s =? ACCEL_FIFO_STREAM)) i ->
  cell (dataBuffer (driver (readFullSensorState_fetch s w))) i
  = cell (dataBuffer s) i.
Proof.
  intros Hi Hout.
  unfold readFullSensorState_fetch. unfold bind at 1. unfold get at 1.
  unfold outside_windows, poll_windows in Hout.
  destruct (accelFIFOMode s =? ACCEL_FIFO_STREAM).
  - inversion Hout as [|? ? [P1 O1] Hout1]; subst.
    inversion Hout1 as [|? ? [P2 O2] Hout2]; subst.
    inversion Hout2 as [|? ? [P3 O3] Hout3]; subst.
    inversion Hout3 as [|? ? [P4 O4] _]; subst. cbn [fst snd] in *.
    unfold bind.
    pose proof (readI2CDevice_dataBuffer_outside REG_TEMP_OUT_L
                  (REG_OUT_Z_H_M - REG_TEMP_OUT_L + 1) s w i P1 Hi O1) as E1.
    destruct (readI2CDevice_dataBuffer REG_TEMP_OUT_L _ s w) as [[e1 s1] w1].
    pose proof (readI2CDevice_dataBuffer_outside REG_WHO_AM_I 1 s1 w1 i P2 Hi O2)
      as E2.
    destruct (readI2CDevice_dataBuffer REG_WHO_AM_I _ s1 w1) as [[e2 s2] w2].
    pose proof (readI2CDevice_dataBuffer_outside REG_INT_CTRL_M
                  (REG_STATUS_A - REG_INT_CTRL_M + 1) s2 w2 i P3 Hi O3) as E3.
    destruct (readI2CDevice_dataBuffer REG_INT_CTRL_M _ s2 w2) as [[e3 s3] w3].
    pose proof (readI2CDevice_dataBuffer_outside REG_FIFO_CTRL
                  (LMS303_I2C_BUFFER - REG_FIFO_CTRL) s3 w3 i P4 Hi O4) as E4.
    destruct (readI2CDevice_dataBuffer REG_FIFO_CTRL _ s3 w3) as [[e4 s4] w4].
    pose proof (readAccelFIFO_dataBuffer s4 w4) as E5.
    destruct (readAccelFIFO s4 w4) as [[n s5] w5].
    pose proof (averageAccelFIFO_dataBuffer n s5 w5) as E6.
    destruct (averageAccelFIFO n s5 w5) as [[e6 s6] w6].
    unfold driver, ret in *. cbn [fst snd] in *.
    rewrite E6, E5. congruence.
  - inversion Hout as [|? ? [P1 O1] _]; subst. cbn [fst snd] in *.
    unfold bind.
    pose proof (readI2CDevice_dataBuffer_outside REG_WHO_AM_I
                  (LMS303_I2C_BUFFER - REG_WHO_AM_I) s w i P1 Hi O1) as E1.
    destruct (readI2CDevice_dataBuffer REG_WHO_AM_I _ s w) as [[e1 s1] w1].
    unfold convertAcceleration, bind, get, modify, ret, driver in *.
    cbn [fst snd] in *. exact E1.
Qed.

(** X2: The poll changes no cell of the register image outside the windows it
    reads: in stream mode the four blocks around the accelerometer output
    registers, otherwise the single block that starts at the identity
    register. *)
Theorem readFullSensorState_image_outside_windows s w i :
  0 <= i ->
  outside_windows (poll_windows (accelFIFOMode s =? ACCEL_FIFO_STREAM)) i ->
  cell (dataBuffer (driver (readFullSensorState s w))) i = cell (dataBuffer s) i.
Proof.
  intros Hi Hout. rewrite readFullSensorState_after_fetch.
  now apply readFullSensorState_fetch_outside.
Qed.

(** What the reads and the acceleration update may change in the driver
    object: the two buffers and the acceleration, nothing else. *)
Lemma readFullSensorState_fetch_shape s w :
  exists buf fifo x y z,
    driver (readFullSensorState_fetch s w)
    = set_accelZ z (set_accelY y (set_accelX x
        (set_accelFIFO fifo (set_dataBuffer buf s)))).
Proof.
  assert (RD : forall reg size s w,
    exists buf, driver (readI2CDevice_dataBuffer reg size s w) = set_dataBuffer buf s).
  { intros reg size s0 w0.
    unfold readI2CDevice_dataBuffer, bind, get, modify, ret, driver.
    pose proof (readI2CDevice_driver (to_char reg)
                  (skipn (Z.to_nat reg) (dataBuffer s0)) size s0 w0) as D.
    unfold driver in D. destruct (readI2CDevice _ _ _ s0 w0) as [[e s1] w1].
    cbn [fst snd] in *. subst s1. eexists. reflexivity. }
  assert (RF : forall s w, exists fifo, driver (readAccelFIFO s w) = set_accelFIFO fifo s).
  { intros s0 w0. unfold readAccelFIFO, bind, get, modify, ret, driver.
    pose proof (readI2CDevice_driver (to_char REG_FIFO_SRC) [Byte.x00] 1 s0 w0) as D.
    unfold driver in D. destruct (readI2CDevice _ _ _ s0 w0) as [[e s1] w1].
    cbn [fst snd] in D. subst s1.
    pose proof (readI2CDevice_driver (to_char REG_OUT_X_L_A) (accelFIFO s0)
                  ACCEL_FIFO_SIZE s0 w1) as D.
    unfold driver in D. destruct (readI2CDevice _ _ _ s0 w1) as [[f s2] w2].
    cbn [fst snd] in D. subst s2. eexists. reflexivity. }
  assert (AV : forall slots s w, exists x y z,
    driver (averageAccelFIFO slots s w) = set_accelZ z (set_accelY y (set_accelX x s))).
  { intros slots s0 w0. unfold averageAccelFIFO. destruct (slots <=? 0).
    - exists (accelX s0), (accelY s0), (accelZ s0). destruct s0. reflexivity.
    - unfold bind, get, modify, ret, convertAcceleration_int, driver.
      destruct (averageAccelFIFO_loop _ _ _ _ _ _) as [[sx sy] sz].
      do 3 eexists. reflexivity. }
  unfold readFullSensorState_fetch. unfold bind at 1. unfold get at 1.
  destruct (accelFIFOMode s =? ACCEL_FIFO_STREAM).
  - unfold bind.
    destruct (RD REG_TEMP_OUT_L (REG_OUT_Z_H_M - REG_TEMP_OUT_L + 1) s w) as [b1 E1].
    destruct (readI2CDevice_dataBuffer REG_TEMP_OUT_L _ s w) as [[e1 s1] w1].
    destruct (RD REG_WHO_AM_I 1 s1 w1) as [b2 E2].
    destruct (readI2CDevice_dataBuffer REG_WHO_AM_I _ s1 w1) as [[e2 s2] w2].
    destruct (RD REG_INT_CTRL_M (REG_STATUS_A - REG_INT_CTRL_M + 1) s2 w2) as [b3 E3].
    destruct (readI2CDevice_dataBuffer REG_INT_CTRL_M _ s2 w2) as [[e3 s3] w3].
    destruct (RD REG_FIFO_CTRL (LMS303_I2C_BUFFER - REG_FIFO_CTRL) s3 w3) as [b4 E4].
    destruct (readI2CDevice_dataBuffer REG_FIFO_CTRL _ s3 w3) as [[e4 s4] w4].
    destruct (RF s4 w4) as [f E5].
    destruct (readAccelFIFO s4 w4) as [[n s5] w5].
    destruct (AV n s5 w5) as (x & y & z & E6).
    destruct (averageAccelFIFO n s5 w5) as [[e6 s6] w6].
    unfold driver, ret in *. cbn [fst snd] in *. subst.
    exists b4, f, x, y, z. reflexivity.
  - unfold bind.
    destruct (RD REG_WHO_AM_I (LMS303_I2C_BUFFER - REG_WHO_AM_I) s w) as [b1 E1].
    destruct (readI2CDevice_dataBuffer REG_WHO_AM_I _ s w) as [[e1 s1] w1].
    unfold convertAcceleration, bind, get, modify, ret, driver in *.
    cbn [fst snd] in *. subst s1. exists b1, (accelFIFO s). do 3 eexists.
    reflexivity.
Qed.

(** A poll that finds 0x49 in the identity register goes on with the
    conversions. *)
Lemma readFullSensorState_in_step s w :
  identity_read s w = Byte.x49 ->
  readFullSensorState s w
  = (getTemperature ;;;
     x <- convertMagnetism REG_OUT_X_H_M REG_OUT_X_L_M ;;
     modify (set_magX x) ;;;
     y <- convertMagnetism REG_OUT_Y_H_M REG_OUT_Y_L_M ;;
     modify (set_magY y) ;;;
     z <- convertMagnetism REG_OUT_Z_H_M REG_OUT_Z_L_M ;;
     modify (set_magZ z) ;;;
     calculatePitchAndRoll ;;;
     ret 0)
      (driver (readFullSensorState_fetch s w))
      (world (readFullSensorState_fetch s w)).
Proof.
  unfold identity_read. intros Hid. unfold readFullSensorState.
  unfold bind at 1. destruct (readFullSensorState_fetch s w) as [[u s1] w1].
  unfold driver, world in *. cbn [fst snd] in *.
  unfold bind at 1. unfold get at 1. rewrite Hid.
  replace (negb (char_val Byte.x49 =? 73)) with false
    by (unfold char_val; destruct CHAR_IS_SIGNED; reflexivity).
  reflexivity.
Qed.

Lemma getTemperature_run s w :
  getTemperature s w
  = (result (getTemperature s w), set_celsius (result (getTemperature s w)) s, w).
Proof.
  unfold getTemperature, bind, get, modify, ret, result.
  destruct (negb _); reflexivity.
Qed.

Lemma getTemperature_cells s s' w w' :
  cell (dataBuffer s) REG_TEMP_OUT_H = cell (dataBuffer s') REG_TEMP_OUT_H ->
  cell (dataBuffer s) REG_TEMP_OUT_L = cell (dataBuffer s') REG_TEMP_OUT_L ->
  result (getTemperature s w) = result (getTemperature s' w').
Proof.
  intros Eh El. unfold getTemperature, bind, get, modify, ret, result.
  rewrite Eh, El. destruct (negb _); reflexivity.
Qed.

(** X3: In a mode other than stream the poll never reads the temperature and
    magnetometer output registers, which lie below the identity register:
    a poll that succeeds stores the temperature and the magnetism that the
    conversions give on the register image as it was before the poll. *)
Theorem readFullSensorState_bypass_reuses_image s w :
  (accelFIFOMode s =? ACCEL_FIFO_STREAM) = false ->
  Forall (fun reg => 0 <= reg < REG_WHO_AM_I) temp_mag_registers ->
  identity_read s w = Byte.x49 ->
  let r := driver (readFullSensorState s w) in
  celsius r = result (getTemperature s w) /\
  magX r = result (convertMagnetism REG_OUT_X_H_M REG_OUT_X_L_M s w) /\
  magY r = result (convertMagnetism REG_OUT_Y_H_M REG_OUT_Y_L_M s w) /\
  magZ r = result (convertMagnetism REG_OUT_Z_H_M REG_OUT_Z_L_M s w).
Proof.
  intros Mode Regs Hid. cbv zeta.
  assert (Cells : forall reg, In reg temp_mag_registers ->
            cell (dataBuffer (driver (readFullSensorState_fetch s w))) reg
            = cell (dataBuffer s) reg).
  { intros reg Hin. rewrite Forall_forall in Regs. specialize (Regs reg Hin).
    apply readFullSensorState_fetch_outside; [lia|].
    rewrite Mode. repeat constructor; cbn [fst snd]; lia. }
  destruct (readFullSensorState_fetch_shape s w) as (buf & fifo & x & y & z & E).
  rewrite (readFullSensorState_in_step s w Hid).
  set (s1 := driver (readFullSensorState_fetch s w)) in *.
  set (w1 := world (readFullSensorState_fetch s w)).
  unfold bind. rewrite (getTemperature_run s1 w1).
  rewrite (getTemperature_cells s1 s w1 w)
    by (apply Cells; unfold temp_mag_registers; cbn [In]; tauto).
  generalize (result (getTemperature s w)). intros c.
  unfold convertMagnetism, calculatePitchAndRoll, bind, get, modify, ret,
    driver, result.
  fields.
  rewrite !Cells by (unfold temp_mag_registers; cbn [In]; tauto).
  rewrite E. fields. repeat split; reflexivity.
Qed.

(** ** A bus that cannot be opened *)

Lemma unopened_next w : Forall unopened (replies w) -> open_ret (next_reply w) < 0.
Proof.
  unfold next_reply. destruct (replies w) as [|r rs]; intros F.
  - simpl. lia.
  - inversion F; subst. assumption.
Qed.

Lemma unopened_tl w : Forall unopened (replies w) -> Forall unopened (tl (replies w)).
Proof. destruct (replies w); intros F; [constructor|now inversion F]. Qed.

Lemma readI2CDevice_unopened address data size s w :
  Forall unopened (replies w) ->
  exists w', readI2CDevice address data size s w = ((1, data), s, w') /\
             Forall unopened (replies w') /\ handles w' = handles w.
Proof.
  intros F. pose proof (unopened_next w F) as O. apply unopened_tl in F.
  unfold readI2CDevice.
  destruct (Z.ltb_spec (open_ret (next_reply w)) 0); [|lia].
  eexists. split; [reflexivity|]. split; assumption || reflexivity.
Qed.

Lemma writeI2CDeviceByte_unopened address value s w :
  Forall unopened (replies w) ->
  exists w', writeI2CDeviceByte address value s w = (1, s, w') /\
             Forall unopened (replies w') /\ handles w' = handles w.
Proof.
  intros F. pose proof (unopened_next w F) as O. apply unopened_tl in F.
  unfold writeI2CDeviceByte.
  destruct (Z.ltb_spec (open_ret (next_reply w)) 0); [|lia].
  eexists. split; [reflexivity|]. split; assumption || reflexivity.
Qed.

Lemma set_dataBuffer_same s : set_dataBuffer (dataBuffer s) s = s.
Proof. destruct s. reflexivity. Qed.

Lemma set_accelFIFO_same s : set_accelFIFO (accelFIFO s) s = s.
Proof. destruct s. reflexivity. Qed.

Lemma readI2CDevice_dataBuffer_unopened reg size s w :
  Forall unopened (replies w) ->
  exists w', readI2CDevice_dataBuffer reg size s w = (1, s, w') /\
             Forall unopened (replies w') /\ handles w' = handles w.
Proof.
  intros F. unfold readI2CDevice_dataBuffer, bind, get, modify, ret.
  destruct (readI2CDevice_unopened (to_char reg)
              (skipn (Z.to_nat reg) (dataBuffer s)) size s w F) as (w' & E & F' & Hh).
  rewrite E. cbn [fst snd]. rewrite firstn_skipn, set_dataBuffer_same.
  exists w'. auto.
Qed.

Lemma readAccelFIFO_unopened s w :
  Forall unopened (replies w) ->
  exists w', readAccelFIFO s w = (1, s, w') /\
             Forall unopened (replies w') /\ handles w' = handles w.
Proof.
  intros F. unfold readAccelFIFO, bind, get, modify, ret.
  destruct (readI2CDevice_unopened (to_char REG_FIFO_SRC) [Byte.x00] 1 s w F)
    as (w1 & E1 & F1 & H1).
  rewrite E1. cbn [fst snd].
  destruct (readI2CDevice_unopened (to_char REG_OUT_X_L_A) (accelFIFO s)
              ACCEL_FIFO_SIZE s w1 F1) as (w2 & E2 & F2 & H2).
  rewrite E2. cbn [fst snd]. rewrite set_accelFIFO_same.
  replace (char_val (to_char (Z.land (char_val (cell [Byte.x00] 0)) 15)) + 1)
    with 1 by (unfold char_val; destruct CHAR_IS_SIGNED; reflexivity).
  exists w2. repeat split; congruence.
Qed.

Lemma averageAccelFIFO_run slots s w :
  world (averageAccelFIFO slots s w) = w /\
  accelFIFO (driver (averageAccelFIFO slots s w)) = accelFIFO s.
Proof.
  unfold averageAccelFIFO. destruct (slots <=? 0); [split; reflexivity|].
  unfold bind, get, modify, ret, convertAcceleration_int, driver, world.
  destruct (averageAccelFIFO_loop _ _ _ _ _ _) as [[sx sy] sz].
  split; reflexivity.
Qed.

Lemma readFullSensorState_fetch_unopened s w :
  Forall unopened (replies w) ->
  exists s' w', readFullSensorState_fetch s w = (tt, s', w') /\
    dataBuffer s' = dataBuffer s /\ accelFIFO s' = accelFIFO s /\
    handles w' = handles w.
Proof.
  intros F. unfold readFullSensorState_fetch. unfold bind at 1. unfold get at 1.
  destruct (accelFIFOMode s =? ACCEL_FIFO_STREAM).
  - unfold bind.
    destruct (readI2CDevice_dataBuffer_unopened REG_TEMP_OUT_L
                (REG_OUT_Z_H_M - REG_TEMP_OUT_L + 1) s w F) as (w1 & E1 & F1 & H1).
    rewrite E1.
    destruct (readI2CDevice_dataBuffer_unopened REG_WHO_AM_I 1 s w1 F1)
      as (w2 & E2 & F2 & H2). rewrite E2.
    destruct (readI2CDevice_dataBuffer_unopened REG_INT_CTRL_M
                (REG_STATUS_A - REG_INT_CTRL_M + 1) s w2 F2) as (w3 & E3 & F3 & H3).
    rewrite E3.
    destruct (readI2CDevice_dataBuffer_unopened REG_FIFO_CTRL
                (LMS303_I2C_BUFFER - REG_FIFO_CTRL) s w3 F3) as (w4 & E4 & F4 & H4).
    rewrite E4.
    destruct (readAccelFIFO_unopened s w4 F4) as (w5 & E5 & F5 & H5).
    rewrite E5.
    pose proof (averageAccelFIFO_dataBuffer 1 s w5) as A1.
    pose proof (averageAccelFIFO_run 1 s w5) as (A2 & A3).
    destruct (averageAccelFIFO 1 s w5) as [[e6 s6] w6].
    unfold driver, world, ret in *. cbn [fst snd] in *. subst w6.
    exists s6, w5. repeat split; congruence.
  - unfold bind.
    destruct (readI2CDevice_dataBuffer_unopened REG_WHO_AM_I
                (LMS303_I2C_BUFFER - REG_WHO_AM_I) s w F) as (w1 & E1 & F1 & H1).
    rewrite E1.
    unfold convertAcceleration, bind, get, modify, ret.
    fields. do 2 eexists. split; [reflexivity|]. fields. repeat split; congruence.
Qed.

(** X4: On a bus that cannot be opened a poll keeps the register image and the
    FIFO buffer, leaves no descriptor open, and reports success exactly when
    the image still holds 0x49 at the identity register: the failed
    transfers by themselves never make the poll fail. *)
Theorem readFullSensorState_unopened_bus s w :
  Forall unopened (replies w) ->
  let r := readFullSensorState s w in
  dataBuffer (driver r) = dataBuffer s /\
  accelFIFO (driver r) = accelFIFO s /\
  handles (world r) = handles w /\
  (result r = 0 <-> cell (dataBuffer s) REG_WHO_AM_I = Byte.x49).
Proof.
  intros F. cbv zeta.
  destruct (readFullSensorState_fetch_unopened s w F)
    as (s1 & w1 & E & B & Q & Hh).
  unfold readFullSensorState, bind. rewrite E. unfold get at 1 2 3 4.
  rewrite B.
  destruct (Z.eqb_spec (char_val (cell (dataBuffer s) REG_WHO_AM_I)) 73) as [K|K];
    cbn [negb].
  - rewrite (getTemperature_run s1 w1).
    unfold convertMagnetism, calculatePitchAndRoll, bind, get, modify, ret,
      driver, world, result. fields.
    repeat split; try congruence. intros _. now apply char_val_0x49.
  - unfold ret, driver, world, result. fields.
    repeat split; try congruence; try discriminate.
    intros K'. rewrite K' in K. exfalso. apply K.
    unfold char_val. destruct CHAR_IS_SIGNED; reflexivity.
Qed.
(** ** Decoding of the raw temperature *)

(** X5: Where plain [char] is unsigned and the four high bits of the raw
    temperature are clear, [getTemperature] returns exactly 25 + raw/8 below
    0x800 and 25 - (0xFFF - raw)/8 from 0x800 on: the 12-bit field is read
    as one's complement, 8 counts per degree around 25 degrees. *)
Theorem getTemperature_twelve_bits s w :
  CHAR_IS_SIGNED = false ->
  let raw := 256 * byte.unsigned (cell (dataBuffer s) REG_TEMP_OUT_H)
             + byte.unsigned (cell (dataBuffer s) REG_TEMP_OUT_L) in
  raw < 4096 ->
  result (getTemperature s w)
  = Float.of_double
      (Double.div
         (Double.of_int (if raw <? 2048 then 200 + raw else 200 - (4095 - raw)))
         (Double.of_int 8)).
Proof.
  intros U raw Hraw. subst raw.
  unfold getTemperature, bind, get, modify, ret, result. cbn [fst snd].
  rewrite !char_val_unsigned by assumption.
  generalize dependent (cell (dataBuffer s) REG_TEMP_OUT_L).
  generalize dependent (cell (dataBuffer s) REG_TEMP_OUT_H).
  clear. intros hi lo Hraw.
  assert (Hhi : byte.unsigned hi < 16)
    by (pose proof (byte.unsigned_range lo); lia).
  clear Hraw.
  destruct hi; try (vm_compute in Hhi; discriminate Hhi); clear Hhi;
    destruct lo; vm_compute; reflexivity.
Qed.

(** ** Decoding of register pairs *)

Lemma byte_pair_value (h l : byte) :
  Z.lor (Z.shiftl (byte.unsigned h) 8) (byte.unsigned l)
  = 256 * byte.unsigned h + byte.unsigned l.
Proof.
  pose proof (byte.unsigned_range h) as Hh. pose proof (byte.unsigned_range l) as Hl.
  change (2 ^ 8) with 256 in *.
  assert (D : Z.land (Z.shiftl (byte.unsigned h) 8) (byte.unsigned l) = 0).
  { apply Z.bits_inj'. intros n Hn. rewrite Z.land_spec, Z.bits_0.
    destruct (Z.lt_ge_cases n 8).
    - rewrite Z.shiftl_spec_low by lia. reflexivity.
    - rewrite <- (Z.mod_small (byte.unsigned l) (2 ^ 8)) by (change (2 ^ 8) with 256; lia).
      rewrite Z.mod_pow2_bits_high by lia. apply andb_false_r. }
  rewrite <- Z.lxor_lor, <- Z.add_nocarry_lxor by assumption.
  rewrite Z.shiftl_mul_pow2 by lia. change (2 ^ 8) with 256. lia.
Qed.

Lemma to_short_signed16 (v : Z) : 0 <= v < 65536 -> to_short v = signed16 v.
Proof.
  intros Hv. unfold to_short, signed16.
  destruct (Z.ltb_spec v 32768); Z.div_mod_to_equations; lia.
Qed.

Lemma register_pair_decoded (h l : byte) :
  CHAR_IS_SIGNED = false ->
  to_short (Z.lor (Z.shiftl (to_short (char_val h)) 8) (char_val l))
  = signed16 (256 * byte.unsigned h + byte.unsigned l).
Proof.
  intros U. rewrite !char_val_unsigned by assumption.
  pose proof (byte.unsigned_range h) as Hh. pose proof (byte.unsigned_range l) as Hl.
  change (2 ^ 8) with 256 in *.
  replace (to_short (byte.unsigned h)) with (byte.unsigned h)
    by (unfold to_short; Z.div_mod_to_equations; lia).
  rewrite byte_pair_value. apply to_short_signed16. lia.
Qed.

(** X6: Where plain [char] is unsigned, [convertAcceleration] and
    [convertMagnetism] read a register pair as the 16-bit two's complement
    number [256 * high + low] and multiply it by the scale factor. *)
Theorem conversions_twos_complement msb lsb s w :
  CHAR_IS_SIGNED = false ->
  let v := signed16 (256 * byte.unsigned (cell (dataBuffer s) msb)
                     + byte.unsigned (cell (dataBuffer s) lsb)) in
  -32768 <= v <= 32767 /\
  result (convertAcceleration msb lsb s w) = Float.mul (Float.of_int v) (accelScale s) /\
  result (convertMagnetism msb lsb s w) = Float.mul (Float.of_int v) (magScale s).
Proof.
  intros U v. subst v. split.
  - pose proof (byte.unsigned_range (cell (dataBuffer s) msb)).
    pose proof (byte.unsigned_range (cell (dataBuffer s) lsb)).
    change (2 ^ 8) with 256 in *. unfold signed16.
    destruct (Z.ltb_spec (256 * byte.unsigned (cell (dataBuffer s) msb)
                          + byte.unsigned (cell (dataBuffer s) lsb)) 32768); lia.
  - unfold convertAcceleration, convertMagnetism, bind, get, ret, result.
    cbn [fst snd]. rewrite register_pair_decoded by assumption.
    split; reflexivity.
Qed.

Lemma negate16_signed16 (u : Z) :
  0 <= u < 65536 -> signed16 u <> -32768 -> negate16 u = - signed16 u.
Proof.
  intros Hu. unfold negate16, signed16. rewrite lxor_ones16 by assumption.
  destruct (Z.ltb_spec u 32768); intros Hn;
    destruct (Z.ltb_spec ((65535 - u + 1) mod 65536) 32768);
    Z.div_mod_to_equations; lia.
Qed.

Lemma sample16_value fifo (a : Z) :
  sample16 fifo 0 a
  = 256 * byte.unsigned (cell fifo (2 * a + 1)) + byte.unsigned (cell fifo (2 * a)).
Proof.
  unfold sample16, cell. rewrite byte_pair_value.
  replace (6 * 0 + 2 * a + 1) with (2 * a + 1) by lia.
  replace (6 * 0 + 2 * a) with (2 * a) by lia. reflexivity.
Qed.

(** X7: The two acceleration paths disagree on the sign. Where plain [char] is
    unsigned, for a FIFO entry whose three samples are not -32768,
    [averageAccelFIFO] over that one entry stores the scaled value of [-v]
    for each axis, [v] being the two's complement number that
    [convertAcceleration] reads from the same two bytes. *)
Theorem averageAccelFIFO_one_entry_negates s w :
  CHAR_IS_SIGNED = false ->
  let v a := signed16 (256 * byte.unsigned (cell (accelFIFO s) (2 * a + 1))
                       + byte.unsigned (cell (accelFIFO s) (2 * a))) in
  v 0 <> -32768 -> v 1 <> -32768 -> v 2 <> -32768 ->
  let r := driver (averageAccelFIFO 1 s w) in
  accelX r = Float.mul (Float.of_int (- v 0)) (accelScale s) /\
  accelY r = Float.mul (Float.of_int (- v 1)) (accelScale s) /\
  accelZ r = Float.mul (Float.of_int (- v 2)) (accelScale s).
Proof.
  intros U v V0 V1 V2 r. subst r v. cbv beta in *.
  unfold averageAccelFIFO. cbn [Z.leb Z.compare].
  unfold bind, get, modify, ret, convertAcceleration_int, driver.
  pose proof (averageAccelFIFO_loop_sum (accelFIFO s) 1 U 0%nat 0 0 0 0) as L.
  change (Z.of_nat 0) with 0 in L. change (Z.to_nat 1) with 1%nat.
  rewrite L by lia. clear L.
  unfold negated_sum. cbn [seq map fold_right]. change (Z.of_nat 0) with 0.
  rewrite !sample16_value. rewrite !Z.add_0_l, !Z.add_0_r, !Z.quot_1_r.
  fields.
  rewrite !negate16_signed16; try assumption;
    try (match goal with
         | |- 0 <= 256 * byte.unsigned ?h + byte.unsigned ?l < 65536 =>
             pose proof (byte.unsigned_range h);
             pose proof (byte.unsigned_range l);
             change (2 ^ 8) with 256 in *; lia
         end).
  repeat split; reflexivity.
Qed.

(** ** Reset *)


Lemma reset_run s w :
  result (reset s w) = 0 /\
  driver (reset s w)
  = set_accelFIFO (memset0 ACCEL_FIFO_SIZE (accelFIFO s))
      (set_dataBuffer (memset0 LMS303_I2C_BUFFER (dataBuffer s)) s).
Proof.
  unfold reset, bind.
  repeat match goal with
  | |- context [writeI2CDeviceByte ?a ?v ?s0 ?w0] =>
      let D := fresh "D" in
      pose proof (writeI2CDeviceByte_driver a v s0 w0) as D; unfold driver in D;
      destruct (writeI2CDeviceByte a v s0 w0) as [[? ?] ?];
      cbn [fst snd] in D; subst
  end.
  unfold get, modify, ret, result, driver. cbn [fst snd]. split; reflexivity.
Qed.

Lemma memset0_cell n a i :
  0 <= i < n -> cell (memset0 n a) i = Byte.x00.
Proof.
  intros Hi. unfold cell, memset0.
  assert (G : forall (k j : nat) (l : list byte),
             (j < k)%nat -> nth j (blit (repeat Byte.x00 k) l) Byte.x00 = Byte.x00).
  { induction k as [|k IH]; intros j l Hj; [lia|].
    destruct l as [|x l]; cbn [repeat blit].
    - destruct j; reflexivity.
    - destruct j as [|j]; [reflexivity|]. cbn [nth]. apply IH. lia. }
  apply G. lia.
Qed.


(** X9: On a bus where the ten transactions get past [open] and [ioctl], [reset]
    writes, in this order, 0x80 to CTRL0 and 0 to CTRL1, ..., CTRL7,
    FIFO_CTRL and FIFO_SRC. *)
Theorem reset_register_writes s w :
  all_selected 10 w ->
  register_writes (trace (world (reset s w)))
  = register_writes (trace w)
    ++ [ (to_char REG_CTRL0, Byte.x80); (to_char REG_CTRL1, Byte.x00);
         (to_char REG_CTRL2, Byte.x00); (to_char REG_CTRL3, Byte.x00);
         (to_char REG_CTRL4, Byte.x00); (to_char REG_CTRL5, Byte.x00);
         (to_char REG_CTRL6, Byte.x00); (to_char REG_CTRL7, Byte.x00);
         (to_char REG_FIFO_CTRL, Byte.x00); (to_char REG_FIFO_SRC, Byte.x00) ].
Proof.
  revert s w.
  change (writes_selected reset 10
    [ (to_char REG_CTRL0, to_char 0x80); (to_char REG_CTRL1, to_char 0x00);
      (to_char REG_CTRL2, to_char 0x00); (to_char REG_CTRL3, to_char 0x00);
      (to_char REG_CTRL4, to_char 0x00); (to_char REG_CTRL5, to_char 0x00);
      (to_char REG_CTRL6, to_char 0x00); (to_char REG_CTRL7, to_char 0x00);
      (to_char REG_FIFO_CTRL, to_char 0x00); (to_char REG_FIFO_SRC, to_char 0x00) ]).
  unfold reset. collect_writes.
Qed.

(** ** The FIFO mode *)

Lemma transactions_getAccelFIFOMode : transactions getAccelFIFOMode 1.
Proof. unfold getAccelFIFOMode. count_transactions. Qed.

Lemma all_selected_le k k' w : (k <= k')%nat -> all_selected k' w -> all_selected k w.
Proof. intros L A i Hi. apply A. lia. Qed.

Lemma stream_bit : to_char (Z.lor (char_val (to_char 64)) 64) = Byte.x40.
Proof. unfold char_val. destruct CHAR_IS_SIGNED; reflexivity. Qed.

(** X10: On a bus where its transactions get past [open] and [ioctl],
    [setAccelFIFOMode] hands to [write], for the stream mode, 0x40 for CTRL0
    and then 0x40 for FIFO_CTRL, and for every other mode only 0x00 for
    FIFO_CTRL: the value it has just read from CTRL0 is not used, the other
    bits of CTRL0 are written as 0. *)
Theorem setAccelFIFOMode_register_writes mode s w :
  all_selected 4 w ->
  register_writes (trace (world (setAccelFIFOMode mode s w)))
  = register_writes (trace w)
    ++ (if negb (mode =? ACCEL_FIFO_BYPASS) && (mode =? ACCEL_FIFO_STREAM)
        then [(to_char REG_CTRL0, Byte.x40); (to_char REG_FIFO_CTRL, Byte.x40)]
        else [(to_char REG_FIFO_CTRL, Byte.x00)]).
Proof.
  intros Sel. unfold setAccelFIFOMode, setAccelFIFOMode_program.
  rewrite stream_bit.
  destruct (mode =? ACCEL_FIFO_BYPASS); cbn [negb andb];
    [|destruct (mode =? ACCEL_FIFO_STREAM)].
  - apply (all_selected_le 3 4) in Sel; [|lia]. revert s w Sel.
    match goal with
    | |- forall s w, _ -> register_writes (trace (world (?M s w))) = _ ++ ?l =>
        change (writes_selected M 3 l)
    end.
    unfold getAccelFIFOMode. collect_writes.
  - revert s w Sel.
    match goal with
    | |- forall s w, _ -> register_writes (trace (world (?M s w))) = _ ++ ?l =>
        change (writes_selected M 4 l)
    end.
    unfold getAccelFIFOMode. collect_writes.
  - apply (all_selected_le 3 4) in Sel; [|lia]. revert s w Sel.
    match goal with
    | |- forall s w, _ -> register_writes (trace (world (?M s w))) = _ ++ ?l =>
        change (writes_selected M 3 l)
    end.
    unfold getAccelFIFOMode. collect_writes.
Qed.

End Further.

Section Configuring.
Context {H : Header} {C : ControlHeader} {T : Target}.

(** ** Single transactions that get through *)

Lemma readI2CDevice_delivers address u s w v bs :
  selected (next_reply w) -> read_bytes (next_reply w) = Some (v :: bs) ->
  exists w', readI2CDevice address [u] 1 s w = ((0, [v]), s, w') /\
    replies w' = tl (replies w) /\
    register_writes (trace w') = register_writes (trace w).
Proof.
  intros [O I] R. unfold readI2CDevice.
  destruct (Z.ltb_spec (open_ret (next_reply w)) 0); [lia|].
  destruct (Z.ltb_spec (ioctl_ret (next_reply w)) 0); [lia|].
  rewrite R. cbn [sys_read_into Z.to_nat Pos.to_nat Pos.iter_op Nat.add firstn
                  blit length Z.of_nat].
  eexists. split; [reflexivity|]. split; [reflexivity|].
  unfold emit, acquire, release, pop_reply. cbn [trace].
  rewrite !register_writes_app. cbn. now rewrite !app_nil_r.
Qed.

Lemma writeI2CDeviceByte_selected address value s w :
  selected (next_reply w) ->
  exists w',
    writeI2CDeviceByte address value s w
    = ((if write_ret (next_reply w) =? 2 then 0 else 3), s, w') /\
    replies w' = tl (replies w) /\
    register_writes (trace w') = register_writes (trace w) ++ [(address, value)].
Proof.
  intros [O I]. unfold writeI2CDeviceByte.
  destruct (Z.ltb_spec (open_ret (next_reply w)) 0); [lia|].
  destruct (Z.ltb_spec (ioctl_ret (next_reply w)) 0); [lia|].
  destruct (write_ret (next_reply w) =? 2); cbn [negb];
    (eexists; split; [reflexivity|]; split; [reflexivity|]);
    unfold emit, acquire, release, pop_reply; cbn [trace];
    rewrite !register_writes_app; cbn; now rewrite ?app_nil_r.
Qed.

Lemma next_reply_cons r rs hs tr : next_reply (mkWorld (r :: rs) hs tr) = r.
Proof. reflexivity. Qed.

(** Runs a method whose transactions are a read that delivers and a write
    that gets through. *)
Ltac read_then_write Hw S1 R1 S2 :=
  match goal with
  | |- context [readI2CDevice ?a [?u] 1 ?s ?w] =>
      let w1 := fresh "w1" in let E1 := fresh "E1" in
      let P1 := fresh "P1" in let W1 := fresh "W1" in
      destruct (readI2CDevice_delivers a u s w _ _
                  ltac:(unfold next_reply; rewrite Hw; exact S1)
                  ltac:(unfold next_reply; rewrite Hw; exact R1))
        as (w1 & E1 & P1 & W1);
      rewrite E1; cbn [fst snd]; rewrite Hw in P1; cbn [tl] in P1;
      match goal with
      | |- context [writeI2CDeviceByte ?a2 ?v2 s w1] =>
          let w2 := fresh "w2" in let E2 := fresh "E2" in
          let P2 := fresh "P2" in let W2 := fresh "W2" in
          destruct (writeI2CDeviceByte_selected a2 v2 s w1
                      ltac:(unfold next_reply; rewrite P1; exact S2))
            as (w2 & E2 & P2 & W2);
          rewrite E2; cbn [fst snd];
          unfold next_reply; rewrite P1; cbn [hd]
      end
  end.

(** ** What the setters write *)

Lemma accel_scale_bits (v : byte) (scale : Z) :
  0 <= scale < 8 ->
  let b := to_char (Z.lor (char_val (to_char (Z.land (char_val v) 199)))
                          (Z.shiftl (char_val (to_char scale)) 3)) in
  byte.unsigned b mod 8 = byte.unsigned v mod 8 /\
  byte.unsigned b / 64 = byte.unsigned v / 64 /\
  (byte.unsigned b / 8) mod 8 = scale.
Proof.
  intros Hs.
  assert (Cases : scale = 0 \/ scale = 1 \/ scale = 2 \/ scale = 3 \/
                  scale = 4 \/ scale = 5 \/ scale = 6 \/ scale = 7) by lia.
  unfold char_val.
  destruct CHAR_IS_SIGNED;
    destruct Cases as [->|[->|[->|[->|[->|[->|[->| ->]]]]]]];
    destruct v; vm_compute; repeat split.
Qed.

(** X11: [setAccelScale] is a read-modify-write of CTRL2: when the read delivers
    [v] and the write gets through, the byte written holds [scale], for a
    scale code from 0 to 7, in bits 5..3 and the bits of [v] elsewhere. *)
Theorem setAccelScale_register_write uninit scale s w r1 r2 rest v bs :
  replies w = r1 :: r2 :: rest ->
  selected r1 -> read_bytes r1 = Some (v :: bs) -> selected r2 ->
  0 <= scale < 8 ->
  exists b,
    register_writes (trace (world (setAccelScale uninit scale s w)))
    = register_writes (trace w) ++ [(to_char REG_CTRL2, b)] /\
    byte.unsigned b mod 8 = byte.unsigned v mod 8 /\
    byte.unsigned b / 64 = byte.unsigned v / 64 /\
    (byte.unsigned b / 8) mod 8 = scale.
Proof.
  intros Hw S1 R1 S2 Hs.
  eexists. split; [|exact (accel_scale_bits v scale Hs)].
  unfold setAccelScale, bind. read_then_write Hw S1 R1 S2.
  unfold cell. cbn [Z.to_nat nth].
  destruct (write_ret r2 =? 2); cbn [negb Z.eqb];
    repeat match goal with
    | |- context [if ?c then _ else _] => destruct c
    end; unfold modify, ret, world; cbn [snd]; rewrite W2, W1; reflexivity.
Qed.

Lemma mag_scale_bits (scale : Z) :
  byte.unsigned (to_char (Z.land (char_val (to_char
                   (Z.shiftl (char_val (to_char scale)) 5))) 96))
  = 32 * (scale mod 4).
Proof.
  assert (E : scale mod 4 = byte.unsigned (to_char scale) mod 4).
  { unfold to_char. rewrite byte.unsigned_of_Z. unfold byte.wrap.
    change (2 ^ 8) with 256. Z.div_mod_to_equations. lia. }
  rewrite E. generalize (to_char scale). intros c.
  unfold char_val. destruct CHAR_IS_SIGNED, c; reflexivity.
Qed.

(** X12: [setMagScale] does not read CTRL6 first: when its transaction gets
    through, the byte written is [scale mod 4] in bits 6..5 and 0 everywhere
    else, whatever the register held. *)
Theorem setMagScale_register_write scale s w :
  selected (next_reply w) ->
  exists b,
    register_writes (trace (world (setMagScale scale s w)))
    = register_writes (trace w) ++ [(to_char REG_CTRL6, b)] /\
    byte.unsigned b = 32 * (scale mod 4).
Proof.
  intros S1. eexists. split; [|exact (mag_scale_bits scale)].
  unfold setMagScale, bind.
  match goal with
  | |- context [writeI2CDeviceByte ?a ?v s w] =>
      destruct (writeI2CDeviceByte_selected a v s w S1) as (w1 & E1 & P1 & W1)
  end.
  rewrite E1. cbn [fst snd].
  destruct (write_ret (next_reply w) =? 2); cbn [negb Z.eqb];
    repeat match goal with
    | |- context [if ?c then _ else _] => destruct c
    end; unfold modify, ret, world; cbn [snd]; exact W1.
Qed.

Lemma mag_rate_bits (v : byte) (rate : Z) :
  0 <= rate < 8 ->
  let b := to_char (Z.lor (char_val (to_char (Z.lor (char_val
                     (to_char (Z.land (char_val v) 131))) 96)))
                          (Z.shiftl (char_val (to_char rate)) 2)) in
  byte.unsigned b mod 4 = byte.unsigned v mod 4 /\
  byte.unsigned b / 128 = byte.unsigned v / 128 /\
  (byte.unsigned b / 32) mod 4 = 3 /\
  (byte.unsigned b / 4) mod 8 = rate.
Proof.
  intros Hs.
  assert (Cases : rate = 0 \/ rate = 1 \/ rate = 2 \/ rate = 3 \/
                  rate = 4 \/ rate = 5 \/ rate = 6 \/ rate = 7) by lia.
  unfold char_val.
  destruct CHAR_IS_SIGNED;
    destruct Cases as [->|[->|[->|[->|[->|[->|[->| ->]]]]]]];
    destruct v; vm_compute; repeat split.
Qed.

(** X13: [setMagDataRate] is a read-modify-write of CTRL5: when the read delivers
    [v] and the write gets through, the byte written keeps bits 7, 1 and 0
    of [v], has the two resolution bits 6..5 set and holds the rate code,
    from 0 to 7, in bits 4..2. *)
Theorem setMagDataRate_register_write rate s w r1 r2 rest v bs :
  replies w = r1 :: r2 :: rest ->
  selected r1 -> read_bytes r1 = Some (v :: bs) -> selected r2 ->
  0 <= rate < 8 ->
  exists b,
    register_writes (trace (world (setMagDataRate rate s w)))
    = register_writes (trace w) ++ [(to_char REG_CTRL5, b)] /\
    byte.unsigned b mod 4 = byte.unsigned v mod 4 /\
    byte.unsigned b / 128 = byte.unsigned v / 128 /\
    (byte.unsigned b / 32) mod 4 = 3 /\
    (byte.unsigned b / 4) mod 8 = rate.
Proof.
  intros Hw S1 R1 S2 Hs.
  eexists. split; [|exact (mag_rate_bits v rate Hs)].
  unfold setMagDataRate, bind. read_then_write Hw S1 R1 S2.
  unfold cell. cbn [Z.to_nat nth].
  destruct (write_ret r2 =? 2); cbn [negb Z.eqb];
    unfold ret, world; cbn [snd]; rewrite W2, W1; reflexivity.
Qed.

Lemma accel_rate_bits (v : byte) (rate : Z) :
  0 <= rate < 16 ->
  let b := to_char (Z.lor (char_val (to_char (Z.land (char_val v) 15)))
                          (Z.shiftl (char_val (to_char rate)) 4)) in
  byte.unsigned b = 16 * rate + byte.unsigned v mod 16.
Proof.
  intros Hs.
  assert (Cases : rate = 0 \/ rate = 1 \/ rate = 2 \/ rate = 3 \/
                  rate = 4 \/ rate = 5 \/ rate = 6 \/ rate = 7 \/
                  rate = 8 \/ rate = 9 \/ rate = 10 \/ rate = 11 \/
                  rate = 12 \/ rate = 13 \/ rate = 14 \/ rate = 15) by lia.
  unfold char_val.
  destruct CHAR_IS_SIGNED;
    destruct Cases as [->|[->|[->|[->|[->|[->|[->|[->|
                      [->|[->|[->|[->|[->|[->|[->| ->]]]]]]]]]]]]]]];
    destruct v; vm_compute; reflexivity.
Qed.

(** X14: [setAccelDataRate] is a read-modify-write of CTRL1: when the read
    delivers [v] and the write gets through, the byte written holds the
    rate code, from 0 to 15, in its high four bits and the low four bits of
    [v]. *)
Theorem setAccelDataRate_register_write uninit rate s w r1 r2 rest v bs :
  replies w = r1 :: r2 :: rest ->
  selected r1 -> read_bytes r1 = Some (v :: bs) -> selected r2 ->
  0 <= rate < 16 ->
  exists b,
    register_writes (trace (world (setAccelDataRate uninit rate s w)))
    = register_writes (trace w) ++ [(to_char REG_CTRL1, b)] /\
    byte.unsigned b = 16 * rate + byte.unsigned v mod 16.
Proof.
  intros Hw S1 R1 S2 Hs.
  eexists. split; [|exact (accel_rate_bits v rate Hs)].
  unfold setAccelDataRate, bind. read_then_write Hw S1 R1 S2.
  unfold cell. cbn [Z.to_nat nth].
  destruct (write_ret r2 =? 2); cbn [negb Z.eqb];
    unfold ret, world; cbn [snd]; rewrite W2, W1; reflexivity.
Qed.

(** ** Reading the data rate back *)

(** X15: [getAccelDataRate] returns the whole byte read from CTRL1, converted as
    it is, not the rate field: when the read delivers [v] the result is the
    value of [v] as a [char]. It returns [DR_ACCEL_ERROR] when the bus is not
    opened or the device not selected, and the uninitialised content of its
    buffer when only the transfer fails. *)
Theorem getAccelDataRate_outcome uninit s w :
  (~ selected (next_reply w) ->
     result (getAccelDataRate uninit s w) = DR_ACCEL_ERROR) /\
  (selected (next_reply w) ->
     forall v bs, read_bytes (next_reply w) = Some (v :: bs) ->
     result (getAccelDataRate uninit s w) = char_val v) /\
  (selected (next_reply w) -> read_bytes (next_reply w) = None ->
     result (getAccelDataRate uninit s w) = char_val uninit).
Proof.
  unfold getAccelDataRate, bind, readI2CDevice, selected, result.
  destruct (Z.ltb_spec (open_ret (next_reply w)) 0);
    [repeat split; intros; try lia; reflexivity|].
  destruct (Z.ltb_spec (ioctl_ret (next_reply w)) 0);
    [repeat split; intros; try lia; reflexivity|].
  repeat split.
  - intros N. exfalso. apply N. lia.
  - intros _ v bs R. rewrite R. reflexivity.
  - intros _ R. rewrite R. reflexivity.
Qed.

(** X16: Reading the rate back after setting it does not give the rate: where
    plain [char] is unsigned, when the device returns the byte [b] that
    [setAccelDataRate] wrote, [getAccelDataRate] yields
    [16 * rate + v mod 16], [v] being what CTRL1 held before. *)
Theorem getAccelDataRate_after_set u1 u2 rate s w r1 r2 r3 rest v bs b :
  CHAR_IS_SIGNED = false ->
  replies w = r1 :: r2 :: r3 :: rest ->
  selected r1 -> read_bytes r1 = Some (v :: bs) -> selected r2 ->
  0 <= rate < 16 ->
  register_writes (trace (world (setAccelDataRate u1 rate s w)))
    = register_writes (trace w) ++ [(to_char REG_CTRL1, b)] ->
  selected r3 -> read_bytes r3 = Some [b] ->
  result ((setAccelDataRate u1 rate ;;; getAccelDataRate u2) s w)
  = 16 * rate + byte.unsigned v mod 16.
Proof.
  intros U Hw S1 R1 S2 Hs Wr S3 R3. revert Wr.
  unfold bind at 1. unfold setAccelDataRate, bind.
  read_then_write Hw S1 R1 S2.
  assert (Hw2 : replies w2 = r3 :: rest) by (rewrite P2, P1; reflexivity).
  unfold cell. cbn [Z.to_nat nth].
  destruct (write_ret r2 =? 2); cbn [negb Z.eqb]; unfold ret, world;
    cbn [fst snd]; rewrite W2, W1; intros Wr;
    apply app_inv_head in Wr; injection Wr as Wr;
    unfold getAccelDataRate, bind;
    (destruct (readI2CDevice_delivers (to_char REG_CTRL1) u2 s w2 b []
                 ltac:(unfold next_reply; rewrite Hw2; exact S3)
                 ltac:(unfold next_reply; rewrite Hw2; exact R3))
       as (w3 & E3 & _));
    rewrite E3; unfold ret, result; cbn [fst snd Z.eqb negb];
    unfold cell; cbn [Z.to_nat nth];
    rewrite char_val_unsigned by assumption; rewrite <- Wr;
    apply (accel_rate_bits v rate Hs).
Qed.

(** ** The address byte of a read *)

Lemma burst_bit (address : byte) :
  byte.unsigned (to_char (Z.lor (char_val address) 128))
  = 128 + byte.unsigned address mod 128.
Proof. unfold char_val. destruct CHAR_IS_SIGNED, address; reflexivity. Qed.

(** X17: A read that gets past [open] and [ioctl] consists of five system
    calls. The register address it sends first has its top bit set exactly
    when more than one byte is asked for (and when the address has it
    already); the low seven bits are those of the address. The descriptor
    is closed whatever [write] and [read] return. *)
Theorem readI2CDevice_address_byte address data size s w :
  selected (next_reply w) ->
  let r := next_reply w in
  exists b n,
    trace (world (readI2CDevice address data size s w))
    = trace w ++ [ sys_open (I2CBus s) (open_ret r);
                   sys_ioctl (open_ret r) (I2CAddress s) (ioctl_ret r);
                   sys_write (open_ret r) [b] (write_ret r);
                   sys_read (open_ret r) size n;
                   sys_close (open_ret r) ] /\
    byte.unsigned b
    = (if size >? 1 then 128 + byte.unsigned address mod 128
       else byte.unsigned address) /\
    handles (world (readI2CDevice address data size s w)) = handles w.
Proof.
  intros [O I] r. subst r. unfold readI2CDevice, world.
  destruct (Z.ltb_spec (open_ret (next_reply w)) 0); [lia|].
  destruct (Z.ltb_spec (ioctl_ret (next_reply w)) 0); [lia|].
  destruct (sys_read_into _ _ _) as [n d]. cbn [snd].
  unfold emit, acquire, release, pop_reply. cbn [trace handles remove_first].
  rewrite Z.eqb_refl. repeat rewrite <- app_assoc. cbn [app].
  do 2 eexists. split; [reflexivity|]. split; [|reflexivity].
  destruct (size >? 1); [apply burst_bit|reflexivity].
Qed.

(** ** Result codes of the two transactions *)

(** X18: [writeI2CDeviceByte] returns 0 exactly when [open], [ioctl] and the
    two-byte [write] all succeed, and then no descriptor stays open; it
    returns 1 exactly when the bus cannot be opened, and then it makes no
    other system call. The frame is handed to [write] exactly when the bus
    is opened and the device selected. *)
Theorem writeI2CDeviceByte_outcome address value s w :
  let r := writeI2CDeviceByte address value s w in
  (result r = 0 <-> write_succeeds (next_reply w)) /\
  (result r = 0 -> handles (world r) = handles w) /\
  (result r = 1 <-> open_ret (next_reply w) < 0) /\
  (result r = 1 ->
     trace (world r) = trace w ++ [sys_open (I2CBus s) (open_ret (next_reply w))] /\
     handles (world r) = handles w) /\
  (selected (next_reply w) ->
     register_writes (trace (world r))
     = register_writes (trace w) ++ [(address, value)]) /\
  (~ selected (next_reply w) ->
     register_writes (trace (world r)) = register_writes (trace w)).
Proof.
  cbv zeta. unfold writeI2CDeviceByte, write_succeeds, selected, result, world.
  destruct (Z.ltb_spec (open_ret (next_reply w)) 0).
  { cbn [fst snd]. unfold emit, pop_reply. cbn [trace handles].
    rewrite register_writes_app. cbn. rewrite app_nil_r.
    repeat split; intros; try lia; try reflexivity. }
  destruct (Z.ltb_spec (ioctl_ret (next_reply w)) 0).
  { cbn [fst snd]. unfold emit, acquire, pop_reply. cbn [trace handles].
    rewrite !register_writes_app. cbn. rewrite !app_nil_r.
    repeat split; intros; try lia; try reflexivity; try discriminate. }
  destruct (Z.eqb_spec (write_ret (next_reply w)) 2); cbn [negb fst snd];
    unfold emit, acquire, release, pop_reply; cbn [trace handles remove_first];
    rewrite ?Z.eqb_refl, !register_writes_app; cbn; rewrite ?app_nil_r;
    repeat split; intros; try lia; try reflexivity; try discriminate;
    try tauto.
Qed.

(** X19: [readI2CDevice] returns 1 or 2 exactly when the bus is not opened or
    the device not selected, and then [data] is as it was; it returns 0 in
    every other case. The length of [data] never changes, and a read never
    hands a register write to the bus. *)
Theorem readI2CDevice_outcome address data size s w :
  let r := readI2CDevice address data size s w in
  (fst (result r) = 0 <-> selected (next_reply w)) /\
  (fst (result r) = 1 <-> open_ret (next_reply w) < 0) /\
  (fst (result r) = 0 \/ fst (result r) = 1 \/ fst (result r) = 2) /\
  (fst (result r) <> 0 -> snd (result r) = data) /\
  length (snd (result r)) = length data /\
  register_writes (trace (world r)) = register_writes (trace w).
Proof.
  cbv zeta.
  pose proof (writes_selected_readI2CDevice address data size s w) as W.
  assert (Wr : register_writes (trace (world (readI2CDevice address data size s w)))
               = register_writes (trace w)).
  { clear W. unfold readI2CDevice, world.
    destruct (open_ret (next_reply w) <? 0);
      [cbn [snd]; unfold emit, pop_reply; cbn [trace];
       rewrite register_writes_app; cbn; now rewrite app_nil_r|].
    destruct (ioctl_ret (next_reply w) <? 0);
      [cbn [snd]; unfold emit, acquire, pop_reply; cbn [trace];
       rewrite !register_writes_app; cbn; now rewrite !app_nil_r|].
    destruct (sys_read_into _ _ _) as [n d]. cbn [snd].
    unfold emit, acquire, release, pop_reply. cbn [trace].
    rewrite !register_writes_app. cbn. now rewrite !app_nil_r. }
  clear W. rewrite Wr. clear Wr.
  destruct (readI2CDevice_stored address data size s w) as (got & E & _).
  rewrite E, blit_length.
  unfold readI2CDevice, selected, result in *.
  destruct (Z.ltb_spec (open_ret (next_reply w)) 0);
    [cbn [fst snd]; repeat split; intros; try lia; try reflexivity; auto|].
  destruct (Z.ltb_spec (ioctl_ret (next_reply w)) 0);
    [cbn [fst snd]; repeat split; intros; try lia; try reflexivity;
     try discriminate; auto|].
  destruct (sys_read_into _ _ _) as [n d]. cbn [fst snd] in *.
  repeat split; intros; try lia; try reflexivity; try discriminate; auto;
    try congruence.
Qed.

(** ** The FIFO mode on a failing bus *)

(** X20: A read-back of FIFO_CTRL that fails is taken for bypass mode: when the
    bus is not opened, the device not selected or the transfer in error,
    [getAccelFIFOMode] returns [ACCEL_FIFO_BYPASS], not
    [ACCEL_FIFO_ERROR]. *)
Theorem getAccelFIFOMode_failed_read s w :
  ~ selected (next_reply w) \/ read_bytes (next_reply w) = None ->
  result (getAccelFIFOMode s w) = ACCEL_FIFO_BYPASS.
Proof.
  intros Fail.
  assert (Z0 : (char_val Byte.x00 =? 0) = true)
    by (unfold char_val; destruct CHAR_IS_SIGNED; reflexivity).
  unfold getAccelFIFOMode, bind, readI2CDevice, selected, result in *.
  destruct (Z.ltb_spec (open_ret (next_reply w)) 0);
    [cbn [fst snd]; unfold cell; cbn [Z.to_nat nth]; now rewrite Z0|].
  destruct (Z.ltb_spec (ioctl_ret (next_reply w)) 0);
    [cbn [fst snd]; unfold cell; cbn [Z.to_nat nth]; now rewrite Z0|].
  destruct Fail as [N|R]; [exfalso; apply N; lia|].
  rewrite R. cbn [sys_read_into fst snd]. unfold cell. cbn [Z.to_nat nth].
  now rewrite Z0.
Qed.

(** ** Configuration on a bus that cannot be opened *)

(** Runs the next transaction of the goal on a bus that cannot be opened. *)
Ltac unopened_step :=
  match goal with
  | F : Forall unopened (replies ?w) |- context [readI2CDevice ?a ?d ?n ?s ?w] =>
      let w' := fresh "w" in let E := fresh "E" in
      let F' := fresh "F" in let Hh := fresh "Hh" in
      destruct (readI2CDevice_unopened a d n s w F) as (w' & E & F' & Hh);
      rewrite E; clear E F; cbn [fst snd]
  | F : Forall unopened (replies ?w) |- context [writeI2CDeviceByte ?a ?v ?s ?w] =>
      let w' := fresh "w" in let E := fresh "E" in
      let F' := fresh "F" in let Hh := fresh "Hh" in
      destruct (writeI2CDeviceByte_unopened a v s w F) as (w' & E & F' & Hh);
      rewrite E; clear E F; cbn [fst snd negb Z.eqb]
  end.

(** Closes a goal [exists w', (a, s, w0) = (a, s, w') /\ ... ]. *)
Ltac unopened_done :=
  eexists; split; [reflexivity|]; split; [assumption|congruence].

Lemma reset_unopened s w :
  Forall unopened (replies w) ->
  exists w', reset s w = (0, driver (reset s w), w') /\
             Forall unopened (replies w') /\ handles w' = handles w.
Proof.
  intros F. destruct (reset_run s w) as [_ D]. rewrite D. clear D.
  unfold reset, bind. repeat unopened_step.
  unfold get, modify, ret. cbn [fst snd]. unopened_done.
Qed.

Lemma setMagDataRate_unopened rate s w :
  Forall unopened (replies w) ->
  exists w', setMagDataRate rate s w = (1, s, w') /\
             Forall unopened (replies w') /\ handles w' = handles w.
Proof.
  intros F. unfold setMagDataRate, bind. repeat unopened_step.
  unfold ret. unopened_done.
Qed.

Lemma setMagScale_unopened scale s w :
  Forall unopened (replies w) ->
  exists w', setMagScale scale s w = (1, set_magScale (Float.of_int 0) s, w') /\
             Forall unopened (replies w') /\ handles w' = handles w.
Proof.
  intros F. unfold setMagScale, bind. repeat unopened_step.
  unfold modify, ret. cbn [fst snd]. unopened_done.
Qed.

Lemma enableMagnetometer_unopened s w :
  Forall unopened (replies w) ->
  exists w', enableMagnetometer s w = (1, set_magScale (Float.of_int 0) s, w') /\
             Forall unopened (replies w') /\ handles w' = handles w.
Proof.
  intros F. unfold enableMagnetometer. unfold bind at 1.
  destruct (setMagDataRate_unopened DR_MAG_100HZ s w F) as (w1 & E1 & F1 & H1).
  rewrite E1. clear E1 F. unfold bind at 1.
  destruct (setMagScale_unopened SCALE_MAG_8gauss s w1 F1) as (w2 & E2 & F2 & H2).
  rewrite E2. clear E2 F1. unfold bind. repeat unopened_step.
  unfold ret. unopened_done.
Qed.

Lemma setAccelDataRate_unopened u rate s w :
  Forall unopened (replies w) ->
  exists w', setAccelDataRate u rate s w = (1, s, w') /\
             Forall unopened (replies w') /\ handles w' = handles w.
Proof.
  intros F. unfold setAccelDataRate, bind. repeat unopened_step.
  unfold ret. unopened_done.
Qed.

Lemma setAccelScale_unopened u scale s w :
  Forall unopened (replies w) ->
  exists w', setAccelScale u scale s w = (1, set_accelScale (Float.of_int 0) s, w') /\
             Forall unopened (replies w') /\ handles w' = handles w.
Proof.
  intros F. unfold setAccelScale, bind. repeat unopened_step.
  unfold modify, ret. cbn [fst snd]. unopened_done.
Qed.

Lemma setAccelFIFOMode_unopened mode s w :
  Forall unopened (replies w) ->
  exists w',
    setAccelFIFOMode mode s w
    = (0, (if ACCEL_FIFO_BYPASS =? mode then set_accelFIFOMode mode s else s), w') /\
    Forall unopened (replies w') /\ handles w' = handles w.
Proof.
  intros F.
  assert (Z0 : (char_val Byte.x00 =? 0) = true)
    by (unfold char_val; destruct CHAR_IS_SIGNED; reflexivity).
  unfold setAccelFIFOMode, setAccelFIFOMode_program, getAccelFIFOMode, bind.
  unopened_step.
  destruct (mode =? ACCEL_FIFO_BYPASS); [|destruct (mode =? ACCEL_FIFO_STREAM)];
    unfold bind, ret; cbn [fst snd]; repeat unopened_step;
    unfold cell; cbn [Z.to_nat nth]; rewrite Z0;
    destruct (ACCEL_FIFO_BYPASS =? mode); cbn [negb];
    unfold modify, ret; cbn [fst snd]; unopened_done.
Qed.

(** X21: On a bus that cannot be opened [setAccelFIFOMode] still returns 0, and
    a request for bypass mode is recorded in [accelFIFOMode] as if the
    device had confirmed it; a request for any other mode leaves
    [accelFIFOMode] as it was. No descriptor is left open. *)
Theorem setAccelFIFOMode_unopened_bus mode s w :
  Forall unopened (replies w) ->
  let r := setAccelFIFOMode mode s w in
  result r = 0 /\
  accelFIFOMode (driver r)
    = (if mode =? ACCEL_FIFO_BYPASS then ACCEL_FIFO_BYPASS else accelFIFOMode s) /\
  handles (world r) = handles w.
Proof.
  intros F. cbv zeta.
  destruct (setAccelFIFOMode_unopened mode s w F) as (w' & E & _ & Hh).
  rewrite E. unfold result, driver, world. cbn [fst snd].
  rewrite (Z.eqb_sym ACCEL_FIFO_BYPASS mode).
  destruct (Z.eqb_spec mode ACCEL_FIFO_BYPASS) as [->|_];
    repeat split; assumption || reflexivity.
Qed.

Lemma enableAccelerometer_unopened u1 u2 s w :
  Forall unopened (replies w) ->
  ACCEL_FIFO_STREAM <> ACCEL_FIFO_BYPASS ->
  exists w',
    enableAccelerometer u1 u2 s w = (1, set_accelScale (Float.of_int 0) s, w') /\
    Forall unopened (replies w') /\ handles w' = handles w.
Proof.
  intros F Ne. unfold enableAccelerometer. unfold bind at 1.
  destruct (setAccelDataRate_unopened u1 DR_ACCEL_16OOHZ s w F)
    as (w1 & E1 & F1 & H1).
  rewrite E1. clear E1 F. unfold bind at 1.
  destruct (setAccelScale_unopened u2 SCALE_ACCEL_8g s w1 F1) as (w2 & E2 & F2 & H2).
  rewrite E2. clear E2 F1. unfold bind at 1.
  destruct (setAccelFIFOMode_unopened ACCEL_FIFO_STREAM
              (set_accelScale (Float.of_int 0) s) w2 F2) as (w3 & E3 & F3 & H3).
  rewrite E3. clear E3 F2.
  destruct (Z.eqb_spec ACCEL_FIFO_BYPASS ACCEL_FIFO_STREAM) as [K|_];
    [congruence|].
  unfold bind. repeat unopened_step. unfold ret. unopened_done.
Qed.

Lemma enableTempSensor_unopened s w :
  Forall unopened (replies w) ->
  exists w', enableTempSensor s w = (1, s, w') /\
             Forall unopened (replies w') /\ handles w' = handles w.
Proof.
  intros F. unfold enableTempSensor, bind. repeat unopened_step.
  unfold ret. unopened_done.
Qed.

Lemma readFullSensorState_unopened_out_of_step s w :
  Forall unopened (replies w) ->
  cell (dataBuffer s) REG_WHO_AM_I <> Byte.x49 ->
  exists fifo x y z w',
    readFullSensorState s w
    = (1, set_accelZ z (set_accelY y (set_accelX x
            (set_accelFIFO fifo (set_dataBuffer (dataBuffer s) s)))), w') /\
    handles w' = handles w.
Proof.
  intros F Hid.
  destruct (readFullSensorState_fetch_unopened s w F)
    as (s1 & w1 & E & B & _ & Hh).
  destruct (readFullSensorState_fetch_shape s w) as (buf & fifo & x & y & z & Sh).
  rewrite E in Sh. unfold driver in Sh. cbn [fst snd] in Sh.
  assert (buf = dataBuffer s) as -> by (rewrite <- B, Sh; reflexivity).
  unfold readFullSensorState. unfold bind at 1. rewrite E.
  unfold bind at 1. unfold get at 1. rewrite B.
  destruct (Z.eqb_spec (char_val (cell (dataBuffer s) REG_WHO_AM_I)) 73) as [K|_].
  - apply char_val_0x49 in K. contradiction.
  - cbn [negb]. unfold ret. rewrite Sh. do 5 eexists. split; [reflexivity|assumption].
Qed.

(** ** Construction *)

(** X22: Construction on a bus that cannot be opened runs to its end without
    any sign of the failure. The object it leaves has both scale factors at
    0, a cleared register image, pitch and roll at 0, and an
    [accelFIFOMode] that was never assigned: it is whatever the memory of
    the object held. No descriptor is left open. *)
Theorem LMS303_new_unopened_bus bus address raw u1 u2 w :
  Forall unopened (replies w) ->
  ACCEL_FIFO_STREAM <> ACCEL_FIFO_BYPASS ->
  0 <= REG_WHO_AM_I < LMS303_I2C_BUFFER ->
  let s' := fst (LMS303_new bus address raw u1 u2 w) in
  let w' := snd (LMS303_new bus address raw u1 u2 w) in
  I2CBus s' = bus /\ I2CAddress s' = address /\
  accelScale s' = Float.of_int 0 /\ magScale s' = Float.of_int 0 /\
  accelFIFOMode s' = accelFIFOMode raw /\
  pitch s' = Float.of_int 0 /\ roll s' = Float.of_int 0 /\
  (forall i, 0 <= i < LMS303_I2C_BUFFER -> cell (dataBuffer s') i = Byte.x00) /\
  handles w' = handles w.
Proof.
  intros F Ne Hreg. cbv zeta. unfold LMS303_new.
  match goal with
  | |- context [(reset ;;; ?rest) ?s0 w] =>
      set (s := s0); remember ((reset ;;; rest) s w) as r eqn:Er
  end.
  unfold bind at 1 in Er.
  destruct (reset_unopened s w F) as (w1 & E1 & F1 & H1).
  destruct (reset_run s w) as [_ D]. rewrite D in E1. clear D.
  rewrite E1 in Er. clear E1.
  set (s1 := set_accelFIFO _ _) in Er.
  unfold bind in Er.
  destruct (enableMagnetometer_unopened s1 w1 F1) as (w2 & E2 & F2 & H2).
  rewrite E2 in Er. clear E2.
  match type of Er with
  | context [enableAccelerometer u1 u2 ?s2 w2] =>
      destruct (enableAccelerometer_unopened u1 u2 s2 w2 F2 Ne)
        as (w3 & E3 & F3 & H3)
  end.
  rewrite E3 in Er. clear E3.
  match type of Er with
  | context [enableTempSensor ?s3 w3] =>
      destruct (enableTempSensor_unopened s3 w3 F3) as (w4 & E4 & F4 & H4)
  end.
  rewrite E4 in Er. clear E4.
  match type of Er with
  | context [readFullSensorState ?s4 w4] =>
      destruct (readFullSensorState_unopened_out_of_step s4 w4 F4)
        as (fifo & x & y & z & w5 & E5 & H5)
  end.
  { subst s1 s. fields. rewrite memset0_cell by lia. discriminate. }
  rewrite E5 in Er. clear E5. subst r. unfold driver, world. subst s1 s. fields.
  repeat match goal with |- _ /\ _ => split end;
    try reflexivity; try congruence.
  intros i Hi. now apply memset0_cell.
Qed.
End Configuring.

Section Enabling.
Context {H : Header} {C : ControlHeader} {T : Target}.

(** ** The two enable methods *)

Lemma hd_skipn {A} (k : nat) (l : list A) (d : A) : hd d (skipn k l) = nth k l d.
Proof. revert l. induction k; intros [|a l]; cbn; auto. Qed.

(** A method that ends in a register write and turns its status into 0 or
    1: after [k] transactions of preparation, the result is that of
    transaction [k] alone. *)
Lemma final_write_outcome {A} (m : Drv A) (k : nat) (reg : byte)
      (val : A -> byte) s w :
  transactions m k ->
  let r := (x <- m ;;
            e <- writeI2CDeviceByte reg (val x) ;;
            if negb (e =? 0) then ret 1 else ret 0) s w in
  replies (world r) = skipn (S k) (replies w) /\
  (result r = 0 <-> write_succeeds (nth k (replies w) no_bus)) /\
  (result r <> 0 -> result r = 1).
Proof.
  intros Tm. cbv zeta. unfold bind. specialize (Tm s w). unfold world in Tm.
  destruct (m s w) as [[x s1] w1]. cbn [snd] in Tm.
  pose proof (writeI2CDeviceByte_result reg (val x) s1 w1) as [R1 R2].
  pose proof (transactions_writeI2CDeviceByte reg (val x) s1 w1) as Tw.
  assert (N : next_reply w1 = nth k (replies w) no_bus)
    by (unfold next_reply; rewrite Tm; apply hd_skipn).
  rewrite N in R1, R2. unfold result, world in *.
  destruct (writeI2CDeviceByte reg (val x) s1 w1) as [[e s2] w2].
  cbn [fst snd] in *.
  assert (Rp : replies w2 = skipn (S k) (replies w)).
  { rewrite Tw, Tm, skipn_skipn. f_equal. }
  destruct (Z.eqb_spec e 0) as [->|Ne]; cbn [negb]; unfold ret; cbn [fst snd].
  - split; [exact Rp|]. split; [|intros X; now elim X].
    split; [intros _|reflexivity].
    destruct (ZArith_dec.Z_lt_dec (open_ret (nth k (replies w) no_bus)) 0) as [L|L].
    + exfalso. apply R2; [|reflexivity]. unfold write_succeeds. lia.
    + destruct (ZArith_dec.Z_lt_dec (ioctl_ret (nth k (replies w) no_bus)) 0) as [L2|L2].
      * exfalso. apply R2; [|reflexivity]. unfold write_succeeds. lia.
      * destruct (Z.eq_dec (write_ret (nth k (replies w) no_bus)) 2) as [L3|L3].
        -- unfold write_succeeds. lia.
        -- exfalso. apply R2; [|reflexivity]. unfold write_succeeds. lia.
  - split; [exact Rp|]. split; [|reflexivity].
    split; [discriminate|]. intros W. elim Ne. now apply R1.
Qed.

Lemma transactions_setMagDataRate rate : transactions (setMagDataRate rate) 2.
Proof. unfold setMagDataRate. count_transactions. Qed.

Lemma transactions_setMagScale scale : transactions (setMagScale scale) 1.
Proof. unfold setMagScale. count_transactions. Qed.

Lemma transactions_setAccelDataRate u rate :
  transactions (setAccelDataRate u rate) 2.
Proof. unfold setAccelDataRate. count_transactions. Qed.

Lemma transactions_setAccelScale u scale :
  transactions (setAccelScale u scale) 2.
Proof. unfold setAccelScale. count_transactions. Qed.

Lemma transactions_setAccelFIFOMode_stream :
  ACCEL_FIFO_STREAM <> ACCEL_FIFO_BYPASS ->
  transactions (setAccelFIFOMode ACCEL_FIFO_STREAM) 4.
Proof.
  intros Ne. unfold setAccelFIFOMode, setAccelFIFOMode_program, getAccelFIFOMode.
  destruct (Z.eqb_spec ACCEL_FIFO_STREAM ACCEL_FIFO_BYPASS) as [E|_];
    [contradiction|].
  rewrite Z.eqb_refl. count_transactions.
Qed.

(** X23: [enableMagnetometer] makes five bus transactions, and its result is
    that of the last one alone: it returns 0 exactly when the write of CTRL7
    succeeds and 1 otherwise. The results of [setMagDataRate] and
    [setMagScale] are dropped, so a data rate or a scale that was not
    programmed is not reported. *)
Theorem enableMagnetometer_outcome s w :
  let r := enableMagnetometer s w in
  replies (world r) = skipn 5 (replies w) /\
  (result r = 0 <-> write_succeeds (nth 4 (replies w) no_bus)) /\
  (result r <> 0 -> result r = 1).
Proof.
  set (m := setMagDataRate DR_MAG_100HZ ;;;
            setMagScale SCALE_MAG_8gauss ;;;
            readI2CDevice (to_char REG_CTRL7) [Byte.x00] 1).
  assert (Tm : transactions m 4).
  { unfold m. eapply transactions_bind;
      [apply transactions_setMagDataRate| intros _ |reflexivity].
    eapply transactions_bind;
      [apply transactions_setMagScale| intros _ |reflexivity].
    apply transactions_readI2CDevice. }
  pose proof (final_write_outcome m 4 (to_char REG_CTRL7)
                (fun r => to_char (Z.land (char_val (cell (snd r) 0)) 0xF8))
                s w Tm) as F.
  cbv zeta in F |- *.
  assert (E : enableMagnetometer s w
              = (x <- m ;;
                 e <- writeI2CDeviceByte (to_char REG_CTRL7)
                        (to_char (Z.land (char_val (cell (snd x) 0)) 0xF8)) ;;
                 if negb (e =? 0) then ret 1 else ret 0) s w).
  { unfold enableMagnetometer, m, bind.
    destruct (setMagDataRate DR_MAG_100HZ s w) as [[v1 s1] w1].
    destruct (setMagScale SCALE_MAG_8gauss s1 w1) as [[v2 s2] w2].
    destruct (readI2CDevice (to_char REG_CTRL7) [Byte.x00] 1 s2 w2)
      as [[v3 s3] w3].
    reflexivity. }
  rewrite E. exact F.
Qed.

(** X24: [enableAccelerometer] makes ten bus transactions, and its result is that
    of the last one alone: it returns 0 exactly when the final write of
    CTRL1 succeeds and 1 otherwise, whatever became of the data rate, the
    scale and the FIFO mode. *)
Theorem enableAccelerometer_outcome u1 u2 s w :
  ACCEL_FIFO_STREAM <> ACCEL_FIFO_BYPASS ->
  let r := enableAccelerometer u1 u2 s w in
  replies (world r) = skipn 10 (replies w) /\
  (result r = 0 <-> write_succeeds (nth 9 (replies w) no_bus)) /\
  (result r <> 0 -> result r = 1).
Proof.
  intros Ne.
  set (m := setAccelDataRate u1 DR_ACCEL_16OOHZ ;;;
            setAccelScale u2 SCALE_ACCEL_8g ;;;
            setAccelFIFOMode ACCEL_FIFO_STREAM ;;;
            readI2CDevice (to_char REG_CTRL1) [Byte.x00] 1).
  assert (Tm : transactions m 9).
  { unfold m. eapply transactions_bind;
      [apply transactions_setAccelDataRate| intros _ |reflexivity].
    eapply transactions_bind;
      [apply transactions_setAccelScale| intros _ |reflexivity].
    eapply transactions_bind;
      [apply (transactions_setAccelFIFOMode_stream Ne)| intros _ |reflexivity].
    apply transactions_readI2CDevice. }
  pose proof (final_write_outcome m 9 (to_char REG_CTRL1)
                (fun r => to_char (Z.lor (char_val (cell (snd r) 0)) 0x07))
                s w Tm) as F.
  cbv zeta in F |- *.
  assert (E : enableAccelerometer u1 u2 s w
              = (x <- m ;;
                 e <- writeI2CDeviceByte (to_char REG_CTRL1)
                        (to_char (Z.lor (char_val (cell (snd x) 0)) 0x07)) ;;
                 if negb (e =? 0) then ret 1 else ret 0) s w).
  { unfold enableAccelerometer, m, bind.
    destruct (setAccelDataRate u1 DR_ACCEL_16OOHZ s w) as [[v1 s1] w1].
    destruct (setAccelScale u2 SCALE_ACCEL_8g s1 w1) as [[v2 s2] w2].
    destruct (setAccelFIFOMode ACCEL_FIFO_STREAM s2 w2) as [[v3 s3] w3].
    destruct (readI2CDevice (to_char REG_CTRL1) [Byte.x00] 1 s3 w3)
      as [[v4 s4] w4].
    reflexivity. }
  rewrite E. exact F.
Qed.
End Enabling.

(** ** The further properties at concrete inputs *)

Lemma readFullSensorState_image_outside_windows_witness :
  cell (dataBuffer (driver (readFullSensorState (H:=LSM303D) (T:=arm_eabi)
          (set_dataBuffer (repeat Byte.xaa 64) (fresh 0))
          (idle [read_ok (repeat Byte.xff 49)])))) 5
  = Byte.xaa.
Proof.
  apply (readFullSensorState_image_outside_windows (H:=LSM303D) (T:=arm_eabi)
           (set_dataBuffer (repeat Byte.xaa 64) (fresh 0))
           (idle [read_ok (repeat Byte.xff 49)]) 5).
  - lia.
  - apply Forall_cons; [cbn; lia | apply Forall_nil].
Defined.

Lemma readFullSensorState_bypass_reuses_image_witness :
  celsius (driver (readFullSensorState (H:=LSM303D) (T:=arm_eabi)
     (set_dataBuffer (zeros 5 ++ [Byte.x08; Byte.x00; Byte.x00; Byte.x01] ++ zeros 55)
                     (fresh 0))
     (idle [read_ok (Byte.x49 :: zeros 48)])))
  = result (getTemperature (H:=LSM303D) (T:=arm_eabi)
     (set_dataBuffer (zeros 5 ++ [Byte.x08; Byte.x00; Byte.x00; Byte.x01] ++ zeros 55)
                     (fresh 0))
     (idle [read_ok (Byte.x49 :: zeros 48)])) /\
  magX (driver (readFullSensorState (H:=LSM303D) (T:=arm_eabi)
     (set_dataBuffer (zeros 5 ++ [Byte.x08; Byte.x00; Byte.x00; Byte.x01] ++ zeros 55)
                     (fresh 0))
     (idle [read_ok (Byte.x49 :: zeros 48)])))
  = result (convertMagnetism (T:=arm_eabi) 0x09 0x08
     (set_dataBuffer (zeros 5 ++ [Byte.x08; Byte.x00; Byte.x00; Byte.x01] ++ zeros 55)
                     (fresh 0))
     (idle [read_ok (Byte.x49 :: zeros 48)])) /\
  magY (driver (readFullSensorState (H:=LSM303D) (T:=arm_eabi)
     (set_dataBuffer (zeros 5 ++ [Byte.x08; Byte.x00; Byte.x00; Byte.x01] ++ zeros 55)
                     (fresh 0))
     (idle [read_ok (Byte.x49 :: zeros 48)])))
  = result (convertMagnetism (T:=arm_eabi) 0x0B 0x0A
     (set_dataBuffer (zeros 5 ++ [Byte.x08; Byte.x00; Byte.x00; Byte.x01] ++ zeros 55)
                     (fresh 0))
     (idle [read_ok (Byte.x49 :: zeros 48)])) /\
  magZ (driver (readFullSensorState (H:=LSM303D) (T:=arm_eabi)
     (set_dataBuffer (zeros 5 ++ [Byte.x08; Byte.x00; Byte.x00; Byte.x01] ++ zeros 55)
                     (fresh 0))
     (idle [read_ok (Byte.x49 :: zeros 48)])))
  = result (convertMagnetism (T:=arm_eabi) 0x0D 0x0C
     (set_dataBuffer (zeros 5 ++ [Byte.x08; Byte.x00; Byte.x00; Byte.x01] ++ zeros 55)
                     (fresh 0))
     (idle [read_ok (Byte.x49 :: zeros 48)])).
Proof.
  apply (readFullSensorState_bypass_reuses_image (H:=LSM303D) (T:=arm_eabi)
     (set_dataBuffer (zeros 5 ++ [Byte.x08; Byte.x00; Byte.x00; Byte.x01] ++ zeros 55)
                     (fresh 0))
     (idle [read_ok (Byte.x49 :: zeros 48)])).
  - reflexivity.
  - repeat (apply Forall_cons; [cbn; lia|]). apply Forall_nil.
  - vm_compute. reflexivity.
Defined.

Lemma readFullSensorState_unopened_bus_witness :
  dataBuffer (driver (readFullSensorState (H:=LSM303D) (T:=arm_eabi) (fresh 1)
                        (idle (repeat no_bus 6))))
  = dataBuffer (fresh 1) /\
  accelFIFO (driver (readFullSensorState (H:=LSM303D) (T:=arm_eabi) (fresh 1)
                       (idle (repeat no_bus 6))))
  = accelFIFO (fresh 1) /\
  handles (world (readFullSensorState (H:=LSM303D) (T:=arm_eabi) (fresh 1)
                    (idle (repeat no_bus 6))))
  = [] /\
  (result (readFullSensorState (H:=LSM303D) (T:=arm_eabi) (fresh 1)
             (idle (repeat no_bus 6))) = 0
   <-> cell (dataBuffer (fresh 1)) 0x0F = Byte.x49).
Proof.
  apply (readFullSensorState_unopened_bus (H:=LSM303D) (T:=arm_eabi) (fresh 1)
           (idle (repeat no_bus 6))).
  repeat (apply Forall_cons; [unfold unopened; cbn; lia|]). apply Forall_nil.
Defined.

Lemma getTemperature_twelve_bits_witness :
  result (getTemperature (H:=LSM303D) (T:=arm_eabi)
            (set_dataBuffer (zeros 5 ++ [Byte.xf8; Byte.x0f] ++ zeros 57) (fresh 0))
            (idle []))
  = Float.of_double (Double.div (Double.of_int 193) (Double.of_int 8)).
Proof.
  apply (getTemperature_twelve_bits (H:=LSM303D) (T:=arm_eabi)
           (set_dataBuffer (zeros 5 ++ [Byte.xf8; Byte.x0f] ++ zeros 57) (fresh 0))
           (idle [])).
  - reflexivity.
  - vm_compute. reflexivity.
Defined.

Lemma conversions_twos_complement_witness :
  -32768 <= -2 <= 32767 /\
  result (convertAcceleration (T:=arm_eabi) 0x29 0x28
            (set_dataBuffer (zeros 40 ++ [Byte.xfe; Byte.xff] ++ zeros 22) (fresh 0))
            (idle []))
  = Float.mul (Float.of_int (-2)) (Float.of_double (Double.literal 244 6)) /\
  result (convertMagnetism (T:=arm_eabi) 0x29 0x28
            (set_dataBuffer (zeros 40 ++ [Byte.xfe; Byte.xff] ++ zeros 22) (fresh 0))
            (idle []))
  = Float.mul (Float.of_int (-2)) (Float.of_double (Double.literal 32 5)).
Proof.
  apply (conversions_twos_complement (T:=arm_eabi) 0x29 0x28
           (set_dataBuffer (zeros 40 ++ [Byte.xfe; Byte.xff] ++ zeros 22) (fresh 0))
           (idle [])).
  reflexivity.
Defined.

Lemma averageAccelFIFO_one_entry_negates_witness :
  accelX (driver (averageAccelFIFO (T:=arm_eabi) 1 (four_samples (fresh 1)) (idle [])))
  = Float.mul (Float.of_int (-1)) (Float.of_double (Double.literal 244 6)) /\
  accelY (driver (averageAccelFIFO (T:=arm_eabi) 1 (four_samples (fresh 1)) (idle [])))
  = Float.mul (Float.of_int 0) (Float.of_double (Double.literal 244 6)) /\
  accelZ (driver (averageAccelFIFO (T:=arm_eabi) 1 (four_samples (fresh 1)) (idle [])))
  = Float.mul (Float.of_int 0) (Float.of_double (Double.literal 244 6)).
Proof.
  apply (averageAccelFIFO_one_entry_negates (T:=arm_eabi)
           (four_samples (fresh 1)) (idle []));
    [reflexivity | vm_compute; discriminate ..].
Defined.

Lemma reset_register_writes_witness :
  register_writes
    (trace (world (reset (H:=LSM303D) (C:=LSM303D_control) (fresh 1)
                     (idle (repeat write_ok 10)))))
  = [ (Byte.x1f, Byte.x80); (Byte.x20, Byte.x00); (Byte.x21, Byte.x00);
      (Byte.x22, Byte.x00); (Byte.x23, Byte.x00); (Byte.x24, Byte.x00);
      (Byte.x25, Byte.x00); (Byte.x26, Byte.x00); (Byte.x2e, Byte.x00);
      (Byte.x2f, Byte.x00) ].
Proof.
  apply (reset_register_writes (H:=LSM303D) (C:=LSM303D_control) (fresh 1)
           (idle (repeat write_ok 10))).
  intros i Hi.
  do 10 (destruct i as [|i]; [unfold selected; cbn; lia|]). lia.
Defined.

Lemma setAccelFIFOMode_register_writes_witness :
  register_writes
    (trace (world (setAccelFIFOMode (H:=LSM303D) (T:=arm_eabi) 1 (fresh 0)
                     (idle [read_ok [Byte.xff]; write_ok; write_ok;
                            read_ok [Byte.x40]]))))
  = [ (Byte.x1f, Byte.x40); (Byte.x2e, Byte.x40) ].
Proof.
  apply (setAccelFIFOMode_register_writes (H:=LSM303D) (T:=arm_eabi) 1 (fresh 0)
           (idle [read_ok [Byte.xff]; write_ok; write_ok; read_ok [Byte.x40]])).
  intros i Hi.
  do 4 (destruct i as [|i]; [unfold selected; cbn; lia|]). lia.
Defined.

Lemma setAccelScale_register_write_witness :
  exists b,
    register_writes
      (trace (world (setAccelScale (H:=LSM303D) (T:=arm_eabi) Byte.x00 3 (fresh 0)
                       (idle [read_ok [Byte.xff]; write_ok]))))
    = [(Byte.x21, b)] /\
    byte.unsigned b mod 8 = 7 /\
    byte.unsigned b / 64 = 3 /\
    (byte.unsigned b / 8) mod 8 = 3.
Proof.
  apply (setAccelScale_register_write (H:=LSM303D) (T:=arm_eabi) Byte.x00 3
           (fresh 0) (idle [read_ok [Byte.xff]; write_ok])
           (read_ok [Byte.xff]) write_ok [] Byte.xff []);
    solve [reflexivity | unfold selected; cbn; lia].
Defined.

Lemma setMagScale_register_write_witness :
  exists b,
    register_writes
      (trace (world (setMagScale (H:=LSM303D) (T:=arm_eabi) 2 (fresh 0)
                       (idle [write_ok]))))
    = [(Byte.x25, b)] /\
    byte.unsigned b = 64.
Proof.
  apply (setMagScale_register_write (H:=LSM303D) (T:=arm_eabi) 2 (fresh 0)
           (idle [write_ok])).
  unfold selected; cbn; lia.
Defined.

Lemma setMagDataRate_register_write_witness :
  exists b,
    register_writes
      (trace (world (setMagDataRate (H:=LSM303D) (T:=arm_eabi) 5 (fresh 0)
                       (idle [read_ok [Byte.x83]; write_ok]))))
    = [(Byte.x24, b)] /\
    byte.unsigned b mod 4 = 3 /\
    byte.unsigned b / 128 = 1 /\
    (byte.unsigned b / 32) mod 4 = 3 /\
    (byte.unsigned b / 4) mod 8 = 5.
Proof.
  apply (setMagDataRate_register_write (H:=LSM303D) (T:=arm_eabi) 5 (fresh 0)
           (idle [read_ok [Byte.x83]; write_ok])
           (read_ok [Byte.x83]) write_ok [] Byte.x83 []);
    solve [reflexivity | unfold selected; cbn; lia].
Defined.

Lemma setAccelDataRate_register_write_witness :
  exists b,
    register_writes
      (trace (world (setAccelDataRate (C:=LSM303D_control) (T:=arm_eabi)
                       Byte.x00 10 (fresh 0)
                       (idle [read_ok [Byte.x07]; write_ok]))))
    = [(Byte.x20, b)] /\
    byte.unsigned b = 167.
Proof.
  apply (setAccelDataRate_register_write (C:=LSM303D_control) (T:=arm_eabi)
           Byte.x00 10 (fresh 0) (idle [read_ok [Byte.x07]; write_ok])
           (read_ok [Byte.x07]) write_ok [] Byte.x07 []);
    solve [reflexivity | unfold selected; cbn; lia].
Defined.

Lemma getAccelDataRate_after_set_witness :
  result ((setAccelDataRate (C:=LSM303D_control) (T:=arm_eabi) Byte.x00 10 ;;;
           getAccelDataRate (C:=LSM303D_control) (T:=arm_eabi) Byte.x00)
            (fresh 0)
            (idle [read_ok [Byte.x07]; write_ok; read_ok [Byte.xa7]]))
  = 167.
Proof.
  apply (getAccelDataRate_after_set (C:=LSM303D_control) (T:=arm_eabi)
           Byte.x00 Byte.x00 10 (fresh 0)
           (idle [read_ok [Byte.x07]; write_ok; read_ok [Byte.xa7]])
           (read_ok [Byte.x07]) write_ok (read_ok [Byte.xa7]) []
           Byte.x07 [] Byte.xa7);
    solve [reflexivity | unfold selected; cbn; lia].
Defined.

Lemma readI2CDevice_address_byte_witness :
  exists b n,
    trace (world (readI2CDevice (T:=arm_eabi) Byte.x28 (zeros 6) 6 (fresh 0)
                    (idle [read_ok (zeros 6)])))
    = [ sys_open 1 3; sys_ioctl 3 0x1d 0; sys_write 3 [b] 1;
        sys_read 3 6 n; sys_close 3 ] /\
    byte.unsigned b = 168 /\
    handles (world (readI2CDevice (T:=arm_eabi) Byte.x28 (zeros 6) 6 (fresh 0)
                      (idle [read_ok (zeros 6)])))
    = [].
Proof.
  apply (readI2CDevice_address_byte (T:=arm_eabi) Byte.x28 (zeros 6) 6 (fresh 0)
           (idle [read_ok (zeros 6)])).
  unfold selected; cbn; lia.
Defined.

Lemma getAccelFIFOMode_failed_read_witness :
  result (getAccelFIFOMode (H:=LSM303D) (T:=arm_eabi) (fresh 1)
            (idle [transfer_fails])) = 0.
Proof.
  apply (getAccelFIFOMode_failed_read (H:=LSM303D) (T:=arm_eabi) (fresh 1)
           (idle [transfer_fails])).
  right. reflexivity.
Defined.

Lemma setAccelFIFOMode_unopened_bus_witness :
  result (setAccelFIFOMode (H:=LSM303D) (T:=arm_eabi) 0 (fresh 1)
            (idle (repeat no_bus 3))) = 0 /\
  accelFIFOMode (driver (setAccelFIFOMode (H:=LSM303D) (T:=arm_eabi) 0 (fresh 1)
                           (idle (repeat no_bus 3)))) = 0 /\
  handles (world (setAccelFIFOMode (H:=LSM303D) (T:=arm_eabi) 0 (fresh 1)
                    (idle (repeat no_bus 3)))) = [].
Proof.
  apply (setAccelFIFOMode_unopened_bus (H:=LSM303D) (T:=arm_eabi) 0 (fresh 1)
           (idle (repeat no_bus 3))).
  repeat (apply Forall_cons; [unfold unopened; cbn; lia|]). apply Forall_nil.
Defined.

Lemma LMS303_new_unopened_bus_witness :
  I2CBus (fst (LMS303_new (H:=LSM303D) (C:=LSM303D_control) (T:=arm_eabi)
                 1 0x1d (fresh 7) Byte.x00 Byte.x00 (idle (repeat no_bus 3))))
  = 1 /\
  I2CAddress (fst (LMS303_new (H:=LSM303D) (C:=LSM303D_control) (T:=arm_eabi)
                 1 0x1d (fresh 7) Byte.x00 Byte.x00 (idle (repeat no_bus 3))))
  = 0x1d /\
  accelScale (fst (LMS303_new (H:=LSM303D) (C:=LSM303D_control) (T:=arm_eabi)
                 1 0x1d (fresh 7) Byte.x00 Byte.x00 (idle (repeat no_bus 3))))
  = Float.of_int 0 /\
  magScale (fst (LMS303_new (H:=LSM303D) (C:=LSM303D_control) (T:=arm_eabi)
                 1 0x1d (fresh 7) Byte.x00 Byte.x00 (idle (repeat no_bus 3))))
  = Float.of_int 0 /\
  accelFIFOMode (fst (LMS303_new (H:=LSM303D) (C:=LSM303D_control) (T:=arm_eabi)
                 1 0x1d (fresh 7) Byte.x00 Byte.x00 (idle (repeat no_bus 3))))
  = 7 /\
  pitch (fst (LMS303_new (H:=LSM303D) (C:=LSM303D_control) (T:=arm_eabi)
                 1 0x1d (fresh 7) Byte.x00 Byte.x00 (idle (repeat no_bus 3))))
  = Float.of_int 0 /\
  roll (fst (LMS303_new (H:=LSM303D) (C:=LSM303D_control) (T:=arm_eabi)
                 1 0x1d (fresh 7) Byte.x00 Byte.x00 (idle (repeat no_bus 3))))
  = Float.of_int 0 /\
  (forall i, 0 <= i < 0x40 ->
     cell (dataBuffer (fst (LMS303_new (H:=LSM303D) (C:=LSM303D_control)
                              (T:=arm_eabi) 1 0x1d (fresh 7) Byte.x00 Byte.x00
                              (idle (repeat no_bus 3))))) i
     = Byte.x00) /\
  handles (snd (LMS303_new (H:=LSM303D) (C:=LSM303D_control) (T:=arm_eabi)
                  1 0x1d (fresh 7) Byte.x00 Byte.x00 (idle (repeat no_bus 3))))
  = [].
Proof.
  apply (LMS303_new_unopened_bus (H:=LSM303D) (C:=LSM303D_control) (T:=arm_eabi)
           1 0x1d (fresh 7) Byte.x00 Byte.x00 (idle (repeat no_bus 3))).
  - repeat (apply Forall_cons; [unfold unopened; cbn; lia|]). apply Forall_nil.
  - discriminate.
  - cbn. lia.
Defined.

Lemma enableAccelerometer_outcome_witness :
  replies (world (enableAccelerometer (H:=LSM303D) (C:=LSM303D_control)
                    (T:=arm_eabi) Byte.x00 Byte.x00 (fresh 0)
                    (idle (repeat select_fails 9 ++ [write_ok]))))
  = [] /\
  (result (enableAccelerometer (H:=LSM303D) (C:=LSM303D_control)
             (T:=arm_eabi) Byte.x00 Byte.x00 (fresh 0)
             (idle (repeat select_fails 9 ++ [write_ok]))) = 0
   <-> write_succeeds write_ok) /\
  (result (enableAccelerometer (H:=LSM303D) (C:=LSM303D_control)
             (T:=arm_eabi) Byte.x00 Byte.x00 (fresh 0)
             (idle (repeat select_fails 9 ++ [write_ok]))) <> 0 ->
   result (enableAccelerometer (H:=LSM303D) (C:=LSM303D_control)
             (T:=arm_eabi) Byte.x00 Byte.x00 (fresh 0)
             (idle (repeat select_fails 9 ++ [write_ok]))) = 1).
Proof.
  apply (enableAccelerometer_outcome (H:=LSM303D) (C:=LSM303D_control)
           (T:=arm_eabi) Byte.x00 Byte.x00 (fresh 0)
           (idle (repeat select_fails 9 ++ [write_ok]))).
  discriminate.
Defined.
